(** * centurylinkchallenge: the per-server load store and its rolling averages

    A shallow embedding of [centurylinkchallenge.go]: the [Context] map of
    servers, [upsert], [get], and the bucketing loop of [average] with its
    helper [appendAndReset], then [update], [StartTheChallenge] and
    [ServeHTTP], followed by the properties of the specification that the
    code was checked against and by further properties of the code.

    Conventions of the embedding.
    - Go's [int] and [time.Duration] are 64-bit: they are integers of [Z]
      with the wrap-around written out ([wrap64]).
    - [float64] is the kernel's binary64 type, so sums and quotients are
      computed exactly as the program computes them.
    - A [time.Time] is the integer number of nanoseconds of its wall-clock
      instant.  The pulses are decoded from JSON and carry no monotonic
      reading, so [Before] and [After] compare wall-clock instants.
    - [time.Now()] is an argument of the functions that read the clock. *)

From Stdlib Require Import ZArith Floats Uint63 Lia.
From stdpp Require Import base list strings gmap.

Local Open Scope Z_scope.

(** ** Machine integers and floats *)

Definition min_int64 : Z := - 2 ^ 63.
Definition max_int64 : Z := 2 ^ 63 - 1.

(** Two's complement wrap-around of a 64-bit signed integer. *)
Definition wrap64 (z : Z) : Z := (z + 2 ^ 63) mod 2 ^ 64 - 2 ^ 63.

(** The conversion [float64(n)] of a 64-bit integer [n]: the nearest
    binary64 number, ties to even. *)
Definition float64_of_int (z : Z) : float :=
  if z <? 0 then
    if z =? min_int64 then (- Z.ldexp 1 63)%float
    else (- PrimFloat.of_uint63 (Uint63.of_Z (- z)))%float
  else PrimFloat.of_uint63 (Uint63.of_Z z).

(** The conversion [int64(f)] of a float: the fraction is discarded.  A
    value that does not fit (or a NaN) gives the smallest integer, as the
    amd64 conversion instruction does. *)
Definition int64_of_float (f : float) : Z :=
  match Prim2SF f with
  | S754_zero _ => 0
  | S754_finite s m e =>
      let mag := Z.shiftl (Z.pos m) e in
      let v := if s then - mag else mag in
      if (min_int64 <=? v) && (v <=? max_int64) then v else min_int64
  | _ => min_int64
  end.

(** ** Time *)

(** An instant, in nanoseconds. *)
Definition instant : Type := Z.
(** A [time.Duration]: a 64-bit count of nanoseconds. *)
Definition Duration : Type := Z.

Definition Second : Duration := 1000000000.
Definition Minute : Duration := 60 * Second.
Definition Hour : Duration := 60 * Minute.

Definition Before (t u : instant) : bool := t <? u.
Definition After (t u : instant) : bool := u <? t.
Definition Add (t : instant) (d : Duration) : instant := t + d.

(** [Duration.Minutes] of Go's [time] package:
    [min := d / Minute; nsec := d % Minute;
     return float64(min) + float64(nsec)/(60*1e9)]. *)
Definition Minutes (d : Duration) : float :=
  (float64_of_int (Z.quot d Minute)
   + float64_of_int (Z.rem d Minute) / 60000000000)%float.

(** ** The data model *)

Record pulse : Type := mkPulse {
  Name : string;
  Cpu : float;
  Mem : float;
  Time : instant
}.

Record server : Type := mkServer {
  ServerName : string;
  Statistics : list pulse
}.

(** The struct [average] of the source, the running sums of one bucket
    (renamed, [average] being also the name of the method). *)
Record averageAcc : Type := mkAverage {
  count : Z;
  memsum : float;
  cpusum : float
}.

(** [Context.servers]. *)
Abbreviation Context := (gmap string server).

(** ** Computations

    The inner loop of [average] need not terminate (a [rate] of zero keeps
    it spinning), so the loops take fuel.  A computation also logs the
    integer divisor of every division of a sum by a count that it performs:
    the log is written only, no branch reads it. *)

Definition M (A : Type) : Type := (list Z * option A)%type.

Definition ret {A} (x : A) : M A := ([], Some x).
Definition out_of_fuel {A} : M A := ([], None).
Definition bind {A B} (m : M A) (f : A -> M B) : M B :=
  match m with
  | (l, None) => (l, None)
  | (l, Some x) => let '(l', r) := f x in (l ++ l', r)
  end.

Notation "'let*' x ':=' m 'in' k" := (bind m (fun x => k))
  (at level 10, x name, m at level 100, k at level 200, only parsing).
Notation "'let*' ' p ':=' m 'in' k" := (bind m (fun x => let 'p := x in k))
  (at level 10, p pattern, m at level 100, k at level 200, only parsing).

(** What the computation returned, if it did. *)
Definition result {A} (m : M A) : option A := snd m.
(** The divisors of the divisions it performed. *)
Definition divisors {A} (m : M A) : list Z := fst m.

(** [sum / float64(count)], logged. *)
Definition divide (sum : float) (n : Z) : M float :=
  ([n], Some (sum / float64_of_int n)%float).

(** ** appendAndReset *)

(** The sums of a bucket that holds no pulse. *)
Definition no_pulse : averageAcc := {| count := 0; memsum := 0; cpusum := 0 |}.

Definition appendAndReset (cpuaverages memaverages : list float) (a : averageAcc)
  : M (list float * list float * averageAcc) :=
  if (0 <? cpusum a)%float then
    let* c := divide (cpusum a) (count a) in
    let* m := divide (memsum a) (count a) in
    ret (cpuaverages ++ [c], memaverages ++ [m], no_pulse)
  else ret (cpuaverages, memaverages, a).

(** ** average *)

(** [time.Duration(float64(-1 * durations) * rate.Minutes()) * time.Minute]:
    the offset from [start] of the older end of the current bucket. *)
Definition bucket_offset (durations : Z) (rate : Duration) : Duration :=
  wrap64
    (int64_of_float (float64_of_int (wrap64 (-1 * durations)) * Minutes rate)%float
     * Minute).

(** The inner [for] of line 165: while the pulse is before the current
    bucket, move to the next bucket and flush the sums. *)
Fixpoint advance (fuel : nat) (start : instant) (rate : Duration) (t : instant)
    (durations : Z) (cpuaverages memaverages : list float) (a : averageAcc)
  : M (Z * list float * list float * averageAcc) :=
  if Before t (Add start (bucket_offset durations rate)) then
    match fuel with
    | O => out_of_fuel
    | S fuel =>
        let durations := wrap64 (durations + 1) in
        let* '(cpuaverages, memaverages, a) :=
          appendAndReset cpuaverages memaverages a in
        advance fuel start rate t durations cpuaverages memaverages a
    end
  else ret (durations, cpuaverages, memaverages, a).

(** The exit of the loop (lines 150 to 155); the method returns
    [memaverages, cpuaverages], in this order. *)
Definition finish (cpuaverages memaverages : list float) (a : averageAcc)
  : M (list float * list float) :=
  if (0 <? cpusum a)%float then
    let* c := divide (cpusum a) (count a) in
    let* m := divide (memsum a) (count a) in
    ret (memaverages ++ [m], cpuaverages ++ [c])
  else ret (memaverages, cpuaverages).

(** Lines 159 to 161. *)
Definition accumulate (a : averageAcc) (p : pulse) : averageAcc :=
  {| count := wrap64 (count a + 1);
     memsum := (memsum a + Mem p)%float;
     cpusum := (cpusum a + Cpu p)%float |}.

(** The loop of line 147.  [pending] is [Statistics[0..i]] read backwards,
    newest appended first: its head is [Statistics[i]], it is empty when
    [i < 0], and its tail is empty when [i == 0]. *)
Fixpoint scan (fuel : nat) (start : instant) (length rate : Duration)
    (pending : list pulse) (durations : Z)
    (cpuaverages memaverages : list float) (a : averageAcc)
  : M (list float * list float) :=
  match pending with
  | [] => finish cpuaverages memaverages a
  | p :: older =>
      if Before (Time p) (Add start (wrap64 (-1 * length))) then
        finish cpuaverages memaverages a
      else if After (Time p) (Add start (bucket_offset durations rate)) then
        scan fuel start length rate older durations cpuaverages memaverages
          (accumulate a p)
      else
        let* '(durations, cpuaverages, memaverages, a) :=
          advance fuel start rate (Time p) durations cpuaverages memaverages a in
        (* line 171: the values returned by this call are dropped *)
        let* _ := match older with
                  | [] => appendAndReset cpuaverages memaverages a
                  | _ => ret (cpuaverages, memaverages, a)
                  end in
        scan fuel start length rate older durations cpuaverages memaverages a
  end.

(** [s.average(length, rate)], called when the clock reads [now]. *)
Definition average (fuel : nat) (now : instant) (s : server)
    (length rate : Duration) : M (list float * list float) :=
  scan fuel now length rate (rev (Statistics s)) 1 [] [] no_pulse.

(** ** upsert *)

(** The pair returned by a handler: the status and the error ([None] for
    [nil]). *)
Definition outcome : Type := (Z * option string)%type.

Definition upsert (c : Context) (s : pulse) : Context * outcome :=
  let c :=
    match c !! Name s with
    | None => <[Name s := {| ServerName := Name s; Statistics := [] |}]> c
    | Some _ => c
    end in
  (alter (fun srv => {| ServerName := ServerName srv;
                        Statistics := Statistics srv ++ [s] |}) (Name s) c,
   (200, None)).

(** ** get *)

(** What [get] writes to the response: a line of text, or the report of
    the four lists of averages (their rendition by [%v] is not modelled). *)
Inductive body : Type :=
  | Text (line : string)
  | Report (mem60 cpu60 mem24 cpu24 : list float).

Record response : Type := mkResponse {
  status : Z;
  err : option string;
  written : option body
}.

(** [get], for the request of [/get/{server}]; [now60] and [now24] are the
    readings of the clock in the two calls of [average]. *)
Definition get (fuel : nat) (now60 now24 : instant) (c : Context)
    (server : string) : M response :=
  match c !! server with
  | None =>
      ret {| status := 500;
             err := Some ("No server information found for '" +:+ server +:+ "'.");
             written := None |}
  | Some srv =>
      if decide (length (Statistics srv) = 0%nat) then
        ret {| status := 200; err := None;
               written := Some (Text ("No update information for server "
                                      +:+ server +:+ " found.")) |}
      else
        let* '(mem60, cpu60) := average fuel now60 srv (Minute * 60) (Minute * 1) in
        let* '(mem24, cpu24) := average fuel now24 srv (Hour * 24) (Hour * 1) in
        ret {| status := 200; err := None;
               written := Some (Report mem60 cpu60 mem24 cpu24) |}
  end.

(** ** update *)

(** [update]; [decoded] is what [decoder.Decode(stat)] gave for the body
    of the request: its error, or the pulse that it filled in. *)
Definition update (c : Context) (decoded : string + pulse) : Context * outcome :=
  match decoded with
  | inl err => (c, (500, Some err))
  | inr stat => upsert c stat
  end.

(** ** StartTheChallenge and ServeHTTP *)

(** The map of servers that [StartTheChallenge] starts with. *)
Definition StartTheChallenge : Context := ∅.

(** A call on the [http.ResponseWriter] of a request: the handler writing
    [b], [http.NotFound(w, r)], or [http.Error(w, text, code)]. *)
Inductive sent : Type :=
  | Wrote (b : body)
  | HttpNotFound
  | HttpError (text : string) (code : Z).

Section Transport.
(** [http.StatusText], of Go's [net/http]. *)
Variable StatusText : Z -> string.

(** [Handler.ServeHTTP], after the handler [h.H] returned [r]: the calls
    made on the writer, those of the handler first. *)
Definition ServeHTTP (r : response) : list sent :=
  match written r with Some b => [Wrote b] | None => [] end
  ++ match err r with
     | Some _ =>
         if status r =? 404 then [HttpNotFound]
         else if status r =? 500 then [HttpError (StatusText (status r)) (status r)]
         else [HttpError (StatusText (status r)) (status r)]
     | None => []
     end.

(** The request [/get/{server}], served. *)
Definition serve_get (fuel : nat) (now60 now24 : instant) (c : Context)
    (server : string) : option (list sent) :=
  ServeHTTP <$> result (get fuel now60 now24 c server).

(** The request [/update], served: the map of servers afterwards and the
    calls made on the writer ([update] writes nothing itself). *)
Definition serve_update (c : Context) (decoded : string + pulse)
  : Context * list sent :=
  let '(c', (st, e)) := update c decoded in
  (c', ServeHTTP {| status := st; err := e; written := None |}).
End Transport.

(** * The vocabulary of the properties *)

(** The map of servers after the pulses [ps] were recorded, one after the
    other, in the map [c]. *)
Definition record (ps : list pulse) (c : Context) : Context :=
  foldl (fun c s => fst (upsert c s)) c ps.

(** The pulses of [ps] that carry the name [name], in their order. *)
Definition named (name : string) (ps : list pulse) : list pulse :=
  filter (fun p => Name p = name) ps.

(** The pulses that a list of decoded requests of [/update] carries. *)
Definition decoded_pulses (ds : list (string + pulse)) : list pulse :=
  omap (fun d => match d with inl _ => None | inr stat => Some stat end) ds.

(** A map of servers is well keyed when each server is stored under its
    own name, holds a pulse, and holds pulses of that name only. *)
Definition well_keyed (c : Context) : Prop :=
  forall name srv,
    c !! name = Some srv ->
    ServerName srv = name
    /\ Statistics srv <> []
    /\ Forall (fun p => Name p = name) (Statistics srv).

(** ** The buckets of the specification *)

(** Bucket [j] of a window of buckets [width] wide, [j = 1] the most
    recent: the instants of [[now - j*width, now - (j-1)*width)]. *)
Definition in_bucket (now : instant) (width : Duration) (j : Z) (t : instant)
  : Prop :=
  now - j * width <= t < now - (j - 1) * width.

(** One pulse every minute for the [n] minutes that end at [now], each
    half a minute into its bucket; the oldest is appended first.  The
    pulse of the minute [j] before [now] reports a cpu load of [j + 1] and
    a memory load of [j + 101]. *)
Definition every_minute (name : string) (now : instant) (n : nat) : list pulse :=
  map (fun j => {| Name := name;
                   Cpu := float64_of_int (Z.of_nat j + 1);
                   Mem := float64_of_int (Z.of_nat j + 101);
                   Time := now - Z.of_nat j * Minute - 30 * Second |})
      (rev (seq 0 n)).

(** The pulse [p], [d] later. *)
Definition delay (d : Duration) (p : pulse) : pulse :=
  {| Name := Name p; Cpu := Cpu p; Mem := Mem p; Time := Time p + d |}.

(** The history kept for a name: empty when the name is unknown. *)
Definition history (c : Context) (name : string) : list pulse :=
  match c !! name with
  | Some srv => Statistics srv
  | None => []
  end.

(** Whether a flush emits an average: the guard [a.cpusum > 0]. *)
Definition emits (a : averageAcc) : bool := (0 <? cpusum a)%float.

(** The sums [a] after at most [n] pulses were read: the count is
    between 0 and [n], and sums with a count of zero are those of
    [no_pulse], which the guard of a flush refuses. *)
Definition counted (n : Z) (a : averageAcc) : Prop :=
  0 <= count a <= n /\ (count a = 0 -> cpusum a = 0%float).

(** The divisors of a computation are counts between 1 and [n]. *)
Definition divides_by_counts {A} (n : Z) (m : M A) : Prop :=
  Forall (fun k => 1 <= k <= n) (divisors m).

(** The sum of a metric over a group of pulses, added in the order of the
    group as the loop adds them, and its mean. *)
Definition total (metric : pulse -> float) (group : list pulse) : float :=
  fold_left (fun sum p => (sum + metric p)%float) group 0%float.

Definition mean (metric : pulse -> float) (group : list pulse) : float :=
  (total metric group / float64_of_int (Z.of_nat (length group)))%float.

(** The state of the loop follows the pulses it read: [groups] are the
    groups of pulses that were flushed, in this order, and [group] the
    pulses added to the sums since. *)
Definition follows (groups : list (list pulse)) (group : list pulse)
    (cpuaverages memaverages : list float) (a : averageAcc) : Prop :=
  Forall (fun g => g <> []) groups
  /\ cpuaverages = map (mean Cpu) groups
  /\ memaverages = map (mean Mem) groups
  /\ count a = Z.of_nat (length group)
  /\ cpusum a = total Cpu group
  /\ memsum a = total Mem group.

(** * Properties *)

(** ** Computations *)

Lemma result_bind {A B} (m : M A) (f : A -> M B) :
  result (bind m f) =
  match result m with Some x => result (f x) | None => None end.
Proof.
  destruct m as [l [x|]]; unfold result, bind; simpl; [|done].
  by destruct (f x).
Qed.

Lemma divisors_bind {A B} (m : M A) (f : A -> M B) :
  divisors (bind m f) =
  divisors m ++ match result m with Some x => divisors (f x) | None => [] end.
Proof.
  destruct m as [l [x|]]; unfold divisors, result, bind; simpl.
  - by destruct (f x).
  - by rewrite app_nil_r.
Qed.

Lemma result_ret {A} (x : A) : result (ret x) = Some x.
Proof. done. Qed.

Lemma divisors_ret {A} (x : A) : divisors (ret x) = [].
Proof. done. Qed.

Lemma result_appendAndReset cpuaverages memaverages a :
  result (appendAndReset cpuaverages memaverages a) =
  Some (if emits a
        then (cpuaverages ++ [(cpusum a / float64_of_int (count a))%float],
              memaverages ++ [(memsum a / float64_of_int (count a))%float],
              no_pulse)
        else (cpuaverages, memaverages, a)).
Proof. unfold appendAndReset, emits. by destruct (0 <? cpusum a)%float. Qed.

Lemma divisors_appendAndReset cpuaverages memaverages a :
  divisors (appendAndReset cpuaverages memaverages a) =
  if emits a then [count a; count a] else [].
Proof. unfold appendAndReset, emits. by destruct (0 <? cpusum a)%float. Qed.

Lemma result_finish cpuaverages memaverages a :
  result (finish cpuaverages memaverages a) =
  Some (if emits a
        then (memaverages ++ [(memsum a / float64_of_int (count a))%float],
              cpuaverages ++ [(cpusum a / float64_of_int (count a))%float])
        else (memaverages, cpuaverages)).
Proof. unfold finish, emits. by destruct (0 <? cpusum a)%float. Qed.

Lemma divisors_finish cpuaverages memaverages a :
  divisors (finish cpuaverages memaverages a) =
  if emits a then [count a; count a] else [].
Proof. unfold finish, emits. by destruct (0 <? cpusum a)%float. Qed.

(** ** The clock may be moved

    Only differences of instants matter: a query at [now + d] over a
    history moved by [d] computes what the query at [now] computes. *)

Lemma Before_delay t start off d :
  Before (t + d) (Add (start + d) off) = Before t (Add start off).
Proof.
  unfold Before, Add.
  destruct (Z.ltb_spec (t + d) (start + d + off)),
    (Z.ltb_spec t (start + off)); auto; lia.
Qed.

Lemma After_delay t start off d :
  After (t + d) (Add (start + d) off) = After t (Add start off).
Proof.
  unfold After, Add.
  destruct (Z.ltb_spec (start + d + off) (t + d)),
    (Z.ltb_spec (start + off) t); auto; lia.
Qed.

Lemma advance_delay d fuel start rate t durations cpuaverages memaverages a :
  advance fuel (start + d) rate (t + d) durations cpuaverages memaverages a =
  advance fuel start rate t durations cpuaverages memaverages a.
Proof.
  revert durations cpuaverages memaverages a.
  induction fuel as [|fuel IH]; intros; simpl; rewrite Before_delay; [done|].
  destruct (Before _ _); [|done].
  destruct (appendAndReset cpuaverages memaverages a) as [l [[[c m] a']|]];
    simpl; [by rewrite IH | done].
Qed.

Lemma scan_delay d fuel start length rate pending durations
    cpuaverages memaverages a :
  scan fuel (start + d) length rate (map (delay d) pending) durations
    cpuaverages memaverages a =
  scan fuel start length rate pending durations cpuaverages memaverages a.
Proof.
  revert durations cpuaverages memaverages a.
  induction pending as [|p older IH]; intros; [done|].
  simpl. rewrite Before_delay, After_delay.
  destruct (Before _ _); [done|].
  destruct (After _ _).
  - by rewrite IH.
  - rewrite advance_delay.
    destruct (advance _ _ _ _ _ _ _ _) as [l [[[[d' c] m] a']|]]; [|done].
    simpl. rewrite IH. by destruct older.
Qed.

Lemma average_delay d fuel now name stats length rate :
  average fuel (now + d) (mkServer name (map (delay d) stats)) length rate =
  average fuel now (mkServer name stats) length rate.
Proof. unfold average. simpl. by rewrite <- map_rev, scan_delay. Qed.

(** ** The buckets of the two windows of [get]

    For the rates of one minute and of one hour the float arithmetic of
    [bucket_offset] is exact: bucket [d] ends [d] rates before [start]. *)

Lemma bucket_offset_upto (rate : Duration) (n : nat) :
  forallb (fun j => bucket_offset (Z.of_nat j) rate =? - Z.of_nat j * rate)
          (seq 1 n) = true ->
  forall d, 1 <= d <= Z.of_nat n -> bucket_offset d rate = - d * rate.
Proof.
  intros Hall d Hd.
  rewrite forallb_forall in Hall.
  specialize (Hall (Z.to_nat d)).
  rewrite Z2Nat.id in Hall by lia.
  apply Z.eqb_eq, Hall, in_seq. lia.
Qed.

Lemma bucket_offset_Minute d :
  1 <= d <= 61 -> bucket_offset d Minute = - d * Minute.
Proof. apply (bucket_offset_upto Minute 61). by vm_compute. Qed.

Lemma bucket_offset_Hour d :
  1 <= d <= 25 -> bucket_offset d Hour = - d * Hour.
Proof. apply (bucket_offset_upto Hour 25). by vm_compute. Qed.

Lemma wrap64_small z : min_int64 <= z <= max_int64 -> wrap64 z = z.
Proof.
  unfold wrap64, min_int64, max_int64. intros H.
  rewrite Z.mod_small; lia.
Qed.

(** A window of at most [k] buckets whose offsets are exact: the inner
    loop stops within [k] rounds, so that [average] returns. *)
Section SupportedWindow.
Variables (rate : Duration) (k : Z) (length : Duration).
Hypothesis rate_pos : 0 < rate.
Hypothesis k_int64 : k + 1 <= max_int64.
Hypothesis offsets :
  forall d, 1 <= d <= k + 1 -> bucket_offset d rate = - d * rate.
Hypothesis length_window : 0 <= length <= k * rate.
Hypothesis length_int64 : length <= max_int64.

Lemma window_start start :
  Add start (wrap64 (-1 * length)) = start - length.
Proof.
  unfold Add. rewrite wrap64_small; [lia|].
  unfold min_int64, max_int64 in *. lia.
Qed.

Lemma advance_returns fuel start t durations cpuaverages memaverages a :
  1 <= durations <= k + 1 ->
  start - length <= t ->
  k + 1 <= Z.of_nat fuel + durations ->
  exists d' c' m' a',
    result (advance fuel start rate t durations cpuaverages memaverages a)
    = Some (d', c', m', a') /\ 1 <= d' <= k + 1.
Proof.
  revert durations cpuaverages memaverages a.
  induction fuel as [|fuel IH]; intros d c m a Hd Ht Hfuel; simpl;
    rewrite (offsets d Hd); unfold Before, Add;
    destruct (Z.ltb_spec t (start + - d * rate)) as [Hlt|Hge];
    try (by exists d, c, m, a).
  - exfalso. assert (d * rate < k * rate) by lia.
    assert (d < k) by nia. lia.
  - assert (d * rate < k * rate) by lia.
    assert (d < k) by nia.
    rewrite result_bind, result_appendAndReset.
    rewrite wrap64_small by (unfold min_int64, max_int64 in *; lia).
    destruct (emits a); apply IH; lia.
Qed.

Lemma scan_returns fuel start pending durations cpuaverages memaverages a :
  1 <= durations <= k + 1 ->
  k <= Z.of_nat fuel ->
  exists r,
    result (scan fuel start length rate pending durations
              cpuaverages memaverages a) = Some r.
Proof.
  intros Hd Hfuel.
  revert durations cpuaverages memaverages a Hd.
  induction pending as [|p older IH]; intros d c m a Hd; simpl.
  { rewrite result_finish. eauto. }
  rewrite window_start. unfold Before at 1.
  destruct (Z.ltb_spec (Time p) (start - length)) as [Hold|Hin].
  { rewrite result_finish. eauto. }
  destruct (After _ _); [by apply IH|].
  destruct (advance_returns fuel start (Time p) d c m a)
    as (d' & c' & m' & a' & Hadv & Hd'); [lia..|].
  rewrite result_bind, Hadv, result_bind.
  destruct older; [rewrite result_appendAndReset|rewrite result_ret];
    by apply IH.
Qed.

Lemma average_returns fuel now s :
  k <= Z.of_nat fuel ->
  exists r, result (average fuel now s length rate) = Some r.
Proof.
  intros Hfuel. unfold average. apply scan_returns; [|done].
  assert (0 <= k) by nia. lia.
Qed.
End SupportedWindow.

Lemma average_returns_Minute fuel now s length :
  (60 <= fuel)%nat -> 0 <= length <= 60 * Minute ->
  exists r, result (average fuel now s length Minute) = Some r.
Proof.
  intros Hfuel Hlen.
  apply (average_returns Minute 60); try done; try lia.
  - intros d Hd. apply bucket_offset_Minute. lia.
  - unfold max_int64. change Minute with 60000000000 in Hlen. lia.
Qed.

Lemma average_returns_Hour fuel now s length :
  (24 <= fuel)%nat -> 0 <= length <= 24 * Hour ->
  exists r, result (average fuel now s length Hour) = Some r.
Proof.
  intros Hfuel Hlen.
  apply (average_returns Hour 24); try done; try lia.
  - intros d Hd. apply bucket_offset_Hour. lia.
  - unfold max_int64. change Hour with 3600000000000 in Hlen. lia.
Qed.

(** ** Buckets that the scan loses *)

(** A pulse that is not after the older end of the current bucket moves
    the scan to a next bucket and is then left: its loads are not read. *)
Lemma scan_drops_pulse_that_changes_bucket fuel start len rate p p' older
    durations cpuaverages memaverages a :
  Time p' = Time p ->
  After (Time p) (Add start (bucket_offset durations rate)) = false ->
  scan fuel start len rate (p' :: older) durations cpuaverages memaverages a
  = scan fuel start len rate (p :: older) durations cpuaverages memaverages a.
Proof. intros Htime Hafter. cbn [scan]. by rewrite Htime, Hafter. Qed.

Lemma every_minute_delay name now n :
  every_minute name now n = map (delay now) (every_minute name 0 n).
Proof.
  unfold every_minute. rewrite map_map. apply map_ext.
  intros j. unfold delay. simpl. f_equal. lia.
Qed.

(** C1, at a history the code loses a bucket of: with one pulse in bucket 2
    (90 seconds old) and one in bucket 1 (30 seconds old) of the last hour
    by minutes, [average] returns a single average per metric, that of the
    newer pulse.  The pulse that makes the loop leave bucket 1 is not added
    to the sums of bucket 2, and bucket 2, which holds it, does not appear. *)
Theorem average_loses_bucket_of_older_pulse (now : instant) (name : string) :
  let older := {| Name := name; Cpu := 1; Mem := 3; Time := now - 90 * Second |} in
  let newer := {| Name := name; Cpu := 2; Mem := 4; Time := now - 30 * Second |} in
  in_bucket now Minute 2 (Time older) /\
  in_bucket now Minute 1 (Time newer) /\
  result (average 60 now (mkServer name [older; newer]) (60 * Minute) Minute)
  = Some ([4%float], [2%float]).
Proof.
  intros older newer. split; [|split].
  - unfold in_bucket, older. cbn [Time]. change Minute with (60 * Second).
    unfold Second. lia.
  - unfold in_bucket, newer. cbn [Time]. change Minute with (60 * Second).
    unfold Second. lia.
  - transitivity
      (result (average 60 (0 + now)
                 (mkServer name
                    (map (delay now)
                       [ {| Name := name; Cpu := 1; Mem := 3;
                            Time := - (90 * Second) |};
                         {| Name := name; Cpu := 2; Mem := 4;
                            Time := - (30 * Second) |} ]))
                 (60 * Minute) Minute)).
    + unfold older, newer, delay. cbn [map Time Name Cpu Mem].
      replace (- (90 * Second) + now) with (now - 90 * Second) by lia.
      replace (- (30 * Second) + now) with (now - 30 * Second) by lia.
      by replace (0 + now) with now by lia.
    + rewrite average_delay. vm_compute. reflexivity.
Qed.

(** The two pulses of C2, (10.0, 50.0) at [T] and (20.0, 60.0) half a
    minute later, queried for the last hour by minutes while both are
    strictly after the older end of bucket 1, that is less than a minute
    after [T]: one bucket, with a cpu average of 15.0 and a mem average of
    55.0.  Bucket 1 also holds the instant of its older end, and the two
    pulses may share an older bucket: see
    [average_of_two_pulses_of_a_bucket_drops_one]. *)
Theorem average_of_two_pulses_of_a_minute
    (fuel : nat) (now T : instant) (name : string) :
  T + 30 * Second <= now < T + 60 * Second ->
  result
    (average fuel now
       (mkServer name
          [ {| Name := name; Cpu := 10; Mem := 50; Time := T |};
            {| Name := name; Cpu := 20; Mem := 60; Time := T + 30 * Second |} ])
       (60 * Minute) Minute)
  = Some ([55%float], [15%float]).
Proof.
  intros Hnow. unfold average. cbn [Statistics rev app scan Time].
  rewrite (bucket_offset_Minute 1) by lia.
  change (wrap64 (-1 * (60 * Minute))) with (- (60 * Minute)).
  unfold Before, After, Add.
  change Minute with (60 * Second) in *. unfold Second in *.
  repeat match goal with
  | |- context [?x <? ?y] =>
      first [ replace (x <? y) with true by (symmetry; apply Z.ltb_lt; lia)
            | replace (x <? y) with false by (symmetry; apply Z.ltb_ge; lia) ]
  end.
  vm_compute. reflexivity.
Qed.

Lemma average_of_two_pulses_of_a_minute_witness :
  result
    (average 60 40000000000
       (mkServer "web-01"
          [ {| Name := "web-01"; Cpu := 10; Mem := 50; Time := 0 |};
            {| Name := "web-01"; Cpu := 20; Mem := 60;
               Time := 0 + 30 * Second |} ])
       (60 * Minute) Minute)
  = Some ([55%float], [15%float]).
Proof.
  apply (average_of_two_pulses_of_a_minute 60 40000000000 0 "web-01").
  unfold Second. lia.
Defined.

(** C2, at clock readings where the code fails it.  The two pulses
    (10.0, 50.0) at [T] and (20.0, 60.0) at [T + 30s] are in the same
    bucket of the last hour by minutes, and [average] returns the loads of
    one of them instead of the averages 15.0 and 55.0.  A minute after [T]
    both are in bucket 1 (the older pulse at its older end): the older
    pulse is not after that end, so it is never added, and the result is
    the newer pulse alone.  At [T + 100s] both are in bucket 2: the newer
    pulse moves the scan to bucket 2 and is never added, and the result is
    the older pulse alone. *)
Theorem average_of_two_pulses_of_a_bucket_drops_one
    (T : instant) (name : string) :
  let first := {| Name := name; Cpu := 10; Mem := 50; Time := T |} in
  let second := {| Name := name; Cpu := 20; Mem := 60;
                   Time := T + 30 * Second |} in
  (in_bucket (T + 60 * Second) Minute 1 (Time first)
   /\ in_bucket (T + 60 * Second) Minute 1 (Time second)
   /\ result (average 60 (T + 60 * Second) (mkServer name [first; second])
                (60 * Minute) Minute)
      = Some ([60%float], [20%float]))
  /\ (in_bucket (T + 100 * Second) Minute 2 (Time first)
      /\ in_bucket (T + 100 * Second) Minute 2 (Time second)
      /\ result (average 60 (T + 100 * Second) (mkServer name [first; second])
                   (60 * Minute) Minute)
         = Some ([50%float], [10%float])).
Proof.
  intros first second.
  assert (Hmoved : forall now0,
            average 60 (T + now0) (mkServer name [first; second])
              (60 * Minute) Minute
            = average 60 now0
                (mkServer name
                   [ {| Name := name; Cpu := 10; Mem := 50; Time := 0 |};
                     {| Name := name; Cpu := 20; Mem := 60;
                        Time := 30 * Second |} ])
                (60 * Minute) Minute).
  { intros now0.
    rewrite <- (average_delay T 60 now0 name
                  [ {| Name := name; Cpu := 10; Mem := 50; Time := 0 |};
                    {| Name := name; Cpu := 20; Mem := 60;
                       Time := 30 * Second |} ]).
    unfold first, second, delay. cbn [map Time Name Cpu Mem].
    replace (now0 + T) with (T + now0) by lia.
    replace (0 + T) with T by lia.
    by replace (30 * Second + T) with (T + 30 * Second) by lia. }
  repeat split;
    try (unfold in_bucket, first, second; cbn [Time];
         change Minute with (60 * Second); unfold Second; lia).
  - rewrite Hmoved. vm_compute. reflexivity.
  - rewrite Hmoved. vm_compute. reflexivity.
Qed.

(** C3, at the history of the claim: 70 pulses, one a minute, the last one
    half a minute before [now].  Each of the 60 buckets of the last hour
    holds one pulse, yet [average] returns one average per metric, the
    values of the newest pulse: after the first bucket every pulse is used
    to move to the next bucket and is never added to the sums. *)
Theorem average_every_minute_one_bucket (now : instant) (name : string) :
  length (every_minute name now 70) = 70%nat /\
  (forall j, (j < 60)%nat ->
     exists p, In p (every_minute name now 70) /\
               in_bucket now Minute (Z.of_nat j + 1) (Time p)) /\
  result (average 60 now (mkServer name (every_minute name now 70))
            (60 * Minute) Minute)
  = Some ([101%float], [1%float]).
Proof.
  split; [|split].
  - unfold every_minute. by rewrite length_map, length_rev, length_seq.
  - intros j Hj.
    exists {| Name := name;
              Cpu := float64_of_int (Z.of_nat j + 1);
              Mem := float64_of_int (Z.of_nat j + 101);
              Time := now - Z.of_nat j * Minute - 30 * Second |}.
    split.
    + unfold every_minute. apply in_map_iff. exists j. split; [done|].
      apply -> in_rev. apply in_seq. lia.
    + unfold in_bucket. cbn [Time]. change Minute with (60 * Second).
      unfold Second. lia.
  - rewrite every_minute_delay.
    replace now with (0 + now) at 1 by lia.
    rewrite average_delay. vm_compute. reflexivity.
Qed.

(** ** Pulses older than the window *)

(** A pulse older than the window ends the scan as the end of the log
    does: what was appended before it, and the pulse itself, are not read. *)
Lemma scan_stops_at_old fuel start length rate recent s older durations
    cpuaverages memaverages a :
  Before (Time s) (Add start (wrap64 (-1 * length))) = true ->
  result (scan fuel start length rate (recent ++ s :: older) durations
            cpuaverages memaverages a)
  = result (scan fuel start length rate recent durations
              cpuaverages memaverages a).
Proof.
  intros Hold. revert durations cpuaverages memaverages a.
  induction recent as [|p recent IH]; intros d c m a.
  { cbn [app scan]. by rewrite Hold. }
  cbn [app scan].
  destruct (Before (Time p) _); [done|].
  destruct (After (Time p) _); [apply IH|].
  rewrite !result_bind.
  destruct (result (advance fuel start rate (Time p) d c m a))
    as [[[[d' c'] m'] a']|]; [|done].
  cbv beta iota. rewrite !result_bind.
  destruct recent as [|q recent].
  - cbn [app]. rewrite result_ret, result_appendAndReset.
    cbn [scan]. by rewrite Hold.
  - cbn [app]. rewrite !result_ret. apply (IH d' c' m' a').
Qed.

(** The same, for a log whose older part is all older than the window. *)
Lemma scan_stops_at_all_old fuel start length rate recent old durations
    cpuaverages memaverages a :
  Forall (fun s => Before (Time s) (Add start (wrap64 (-1 * length))) = true)
         old ->
  result (scan fuel start length rate (recent ++ old) durations
            cpuaverages memaverages a)
  = result (scan fuel start length rate recent durations
              cpuaverages memaverages a).
Proof.
  intros Hold. destruct Hold as [|s old Hs _].
  - by rewrite app_nil_r.
  - by apply scan_stops_at_old.
Qed.

(** C4: in a query of the last 24 hours by hours, a pulse 25 hours old
    takes part in nothing.  The result is the one computed from the pulses
    appended after it alone, so that its loads enter no average and no
    bucket is added for it; when the pulses appended before it are older
    than the window as well, the result is that of the log without it; and
    the query returns, with fuel for 24 buckets. *)
Theorem average_ignores_pulse_of_25_hours_ago
    (fuel : nat) (now : instant) (name : string)
    (before : list pulse) (s : pulse) (after : list pulse) :
  Time s = now - 25 * Hour ->
  result (average fuel now (mkServer name (before ++ s :: after))
            (24 * Hour) Hour)
  = result (average fuel now (mkServer name after) (24 * Hour) Hour)
  /\ (Forall (fun p => Time p < now - 24 * Hour) before ->
      result (average fuel now (mkServer name (before ++ s :: after))
                (24 * Hour) Hour)
      = result (average fuel now (mkServer name (before ++ after))
                  (24 * Hour) Hour))
  /\ ((24 <= fuel)%nat ->
      exists r,
        result (average fuel now (mkServer name (before ++ s :: after))
                  (24 * Hour) Hour) = Some r).
Proof.
  intros Hs.
  assert (Hcut : forall t, t < now - 24 * Hour ->
            Before t (Add now (wrap64 (-1 * (24 * Hour)))) = true).
  { intros t Ht. change (wrap64 (-1 * (24 * Hour))) with (- (24 * Hour)).
    unfold Before, Add. apply Z.ltb_lt. lia. }
  assert (Hold : Before (Time s) (Add now (wrap64 (-1 * (24 * Hour)))) = true).
  { apply Hcut. rewrite Hs. change Hour with 3600000000000. lia. }
  assert (Hfst :
    result (average fuel now (mkServer name (before ++ s :: after))
              (24 * Hour) Hour)
    = result (average fuel now (mkServer name after) (24 * Hour) Hour)).
  { unfold average. cbn [Statistics].
    rewrite rev_app_distr. cbn [rev]. rewrite <- app_assoc. cbn [app].
    by apply scan_stops_at_old. }
  split; [done|split].
  - intros Hbefore. rewrite Hfst. symmetry.
    unfold average. cbn [Statistics]. rewrite rev_app_distr.
    apply scan_stops_at_all_old.
    apply Forall_forall. intros p Hp. apply Hcut.
    rewrite Forall_forall in Hbefore. apply Hbefore.
    apply list_elem_of_In. apply list_elem_of_In in Hp.
    by apply in_rev.
  - intros Hfuel. apply average_returns_Hour; [done|].
    change Hour with 3600000000000. lia.
Qed.

Lemma average_ignores_pulse_of_25_hours_ago_witness :
  result (average 24 (100 * Hour)
            (mkServer "web-01"
               ([ {| Name := "web-01"; Cpu := 7; Mem := 8; Time := 99 * Hour |} ]
                ++ {| Name := "web-01"; Cpu := 90; Mem := 95;
                      Time := 100 * Hour - 25 * Hour |}
                :: [ {| Name := "web-01"; Cpu := 1; Mem := 3;
                        Time := 99 * Hour + 30 * Minute |} ]))
            (24 * Hour) Hour)
  = result (average 24 (100 * Hour)
              (mkServer "web-01"
                 [ {| Name := "web-01"; Cpu := 1; Mem := 3;
                      Time := 99 * Hour + 30 * Minute |} ])
              (24 * Hour) Hour).
Proof.
  refine (proj1 (average_ignores_pulse_of_25_hours_ago 24 (100 * Hour) "web-01"
           [ {| Name := "web-01"; Cpu := 7; Mem := 8; Time := 99 * Hour |} ]
           {| Name := "web-01"; Cpu := 90; Mem := 95;
              Time := 100 * Hour - 25 * Hour |}
           [ {| Name := "web-01"; Cpu := 1; Mem := 3;
                Time := 99 * Hour + 30 * Minute |} ] _)).
  reflexivity.
Defined.

(** ** The store *)

Lemma upsert_outcome c s : snd (upsert c s) = (200, None).
Proof. done. Qed.

Lemma upsert_history c s :
  history (fst (upsert c s)) (Name s) = history c (Name s) ++ [s].
Proof.
  unfold history, upsert. cbn [fst].
  rewrite lookup_alter_eq.
  destruct (c !! Name s) as [srv|] eqn:Hsrv.
  - by rewrite Hsrv.
  - by rewrite lookup_insert_eq.
Qed.

Lemma upsert_other c s name :
  name <> Name s -> history (fst (upsert c s)) name = history c name.
Proof.
  intros Hne. unfold history, upsert. cbn [fst].
  rewrite lookup_alter_ne by done.
  destruct (c !! Name s); [done|].
  by rewrite lookup_insert_ne.
Qed.

(** Two pulses of one server recorded one after the other are both kept,
    in this order. *)
Lemma upsert_twice c s1 s2 :
  Name s1 = Name s2 ->
  history (fst (upsert (fst (upsert c s1)) s2)) (Name s1)
  = history c (Name s1) ++ [s1; s2].
Proof.
  intros Hname. rewrite Hname, upsert_history, <- Hname, upsert_history.
  by rewrite <- app_assoc.
Qed.

(** [get] returns, with fuel for the 60 buckets of its larger window. *)
Lemma get_returns fuel now60 now24 c name :
  (60 <= fuel)%nat -> exists r, result (get fuel now60 now24 c name) = Some r.
Proof.
  intros Hfuel. unfold get.
  destruct (c !! name) as [srv|]; [|by eexists].
  destruct (decide _); [by eexists|].
  change (Minute * 1) with Minute. change (Hour * 1) with Hour.
  destruct (average_returns_Minute fuel now60 srv (Minute * 60))
    as [[mem60 cpu60] H60]; [done|by vm_compute|].
  destruct (average_returns_Hour fuel now24 srv (Hour * 24))
    as [[mem24 cpu24] H24]; [lia|by vm_compute|].
  rewrite result_bind, H60. cbv beta iota.
  rewrite result_bind, H24. by eexists.
Qed.

(** C5: [get] tells a name that was never recorded from a known server
    with no pulse yet.  For the first it returns an error (with the status
    500) and writes nothing; for the second it returns the status 200 and
    no error, and writes a line that reports no averages. *)
Theorem get_unknown_differs_from_empty
    (fuel : nat) (now60 now24 : instant) (c : Context)
    (unknown known : string) (srv : server) :
  c !! unknown = None ->
  c !! known = Some srv ->
  Statistics srv = [] ->
  result (get fuel now60 now24 c unknown)
  = Some {| status := 500;
            err := Some ("No server information found for '" +:+ unknown +:+ "'.");
            written := None |}
  /\ result (get fuel now60 now24 c known)
     = Some {| status := 200;
               err := None;
               written := Some (Text ("No update information for server "
                                      +:+ known +:+ " found.")) |}
  /\ result (get fuel now60 now24 c unknown)
     <> result (get fuel now60 now24 c known).
Proof.
  intros Hunknown Hknown Hempty.
  assert (H1 : result (get fuel now60 now24 c unknown)
               = Some {| status := 500;
                         err := Some ("No server information found for '"
                                      +:+ unknown +:+ "'.");
                         written := None |}).
  { unfold get. by rewrite Hunknown. }
  assert (H2 : result (get fuel now60 now24 c known)
               = Some {| status := 200;
                         err := None;
                         written := Some (Text ("No update information for server "
                                                +:+ known +:+ " found.")) |}).
  { unfold get. rewrite Hknown, Hempty. by destruct (decide _). }
  split; [done|split; [done|]].
  rewrite H1, H2. discriminate.
Qed.

Lemma get_unknown_differs_from_empty_witness :
  result (get 60 0 0 {[ "idle" := mkServer "idle" [] ]} "ghost")
  <> result (get 60 0 0 {[ "idle" := mkServer "idle" [] ]} "idle").
Proof.
  refine (proj2 (proj2 (get_unknown_differs_from_empty 60 0 0
            {[ "idle" := mkServer "idle" [] ]} "ghost" "idle"
            (mkServer "idle" []) _ _ _))); reflexivity.
Defined.

(** C6, refuted: a pulse with an empty name is stored under the empty key
    of an empty store, and [upsert] reports success. *)
Lemma upsert_stores_under_empty_name :
  let p := {| Name := ""; Cpu := 1; Mem := 2; Time := 0 |} in
  fst (upsert ∅ p) !! "" = Some (mkServer "" [p])
  /\ fst (upsert ∅ p) <> ∅
  /\ snd (upsert ∅ p) = (200, None).
Proof.
  intros p.
  assert (H : fst (upsert ∅ p) !! "" = Some (mkServer "" [p])).
  { unfold upsert. cbn [fst Name p]. rewrite lookup_empty.
    by rewrite lookup_alter_eq, lookup_insert_eq. }
  split; [done|split; [|done]].
  intros Heq. rewrite Heq, lookup_empty in H. discriminate.
Qed.

(** C6, as the code has it: [upsert] does not check the name.  A pulse
    with an empty name is accepted (status 200, no error) and appended to
    the history kept under the empty key, which is created if needed; the
    other histories are unchanged. *)
Theorem upsert_accepts_empty_name (c : Context) (s : pulse) :
  Name s = "" ->
  snd (upsert c s) = (200, None)
  /\ history (fst (upsert c s)) "" = history c "" ++ [s]
  /\ (forall name, name <> "" ->
        history (fst (upsert c s)) name = history c name).
Proof.
  intros Hname. split; [done|split].
  - rewrite <- Hname. apply upsert_history.
  - intros name Hne. apply upsert_other. by rewrite Hname.
Qed.

Lemma upsert_accepts_empty_name_witness :
  history (fst (upsert ∅ {| Name := ""; Cpu := 1; Mem := 2; Time := 0 |})) ""
  = history ∅ "" ++ [ {| Name := ""; Cpu := 1; Mem := 2; Time := 0 |} ].
Proof.
  refine (proj1 (proj2 (upsert_accepts_empty_name ∅
            {| Name := ""; Cpu := 1; Mem := 2; Time := 0 |} _))).
  reflexivity.
Defined.

(** C7, refuted: a length of 90 seconds is no multiple of the rate of one
    minute, and [average] returns averages. *)
Lemma average_of_90_seconds_by_minutes :
  Z.rem (90 * Second) Minute <> 0
  /\ result
       (average 60 (1000 * Hour)
          (mkServer "web-01"
             [ {| Name := "web-01"; Cpu := 1; Mem := 3;
                  Time := 1000 * Hour - 80 * Second |};
               {| Name := "web-01"; Cpu := 2; Mem := 4;
                  Time := 1000 * Hour - 30 * Second |} ])
          (90 * Second) Minute)
     = Some ([4%float], [2%float]).
Proof. split; [by vm_compute|]. vm_compute. reflexivity. Qed.

(** C7, as the code has it: [average] checks nothing and has no error to
    return.  For the rates of [get], one minute and one hour, and every
    length within the window of [get] that is no multiple of the rate, it
    returns its two lists of averages. *)
Theorem average_accepts_any_length
    (fuel : nat) (now : instant) (s : server) (length rate : Duration) :
  (60 <= fuel)%nat ->
  (rate = Minute /\ 0 <= length <= 60 * Minute)
  \/ (rate = Hour /\ 0 <= length <= 24 * Hour) ->
  Z.rem length rate <> 0 ->
  exists memaverages cpuaverages,
    result (average fuel now s length rate) = Some (memaverages, cpuaverages).
Proof.
  intros Hfuel Hwindow _.
  assert (exists r, result (average fuel now s length rate) = Some r)
    as [[mem cpu] Hr]; [|by exists mem, cpu].
  destruct Hwindow as [[-> Hlen]|[-> Hlen]].
  - by apply average_returns_Minute.
  - apply average_returns_Hour; [lia|done].
Qed.

Lemma average_accepts_any_length_witness :
  exists memaverages cpuaverages,
    result (average 60 0 (mkServer "web-01" []) (90 * Second) Minute)
    = Some (memaverages, cpuaverages).
Proof.
  apply (average_accepts_any_length 60 0 (mkServer "web-01" [])
           (90 * Second) Minute).
  - lia.
  - left. split; [reflexivity|]. vm_compute. split; discriminate.
  - vm_compute. discriminate.
Defined.

(** ** The divisors *)

Lemma counted_no_pulse n : 0 <= n -> counted n no_pulse.
Proof. intros Hn. split; [simpl; lia|done]. Qed.

Lemma counted_mono n n' a : n <= n' -> counted n a -> counted n' a.
Proof. intros Hle [Hc Hz]. split; [lia|done]. Qed.

Lemma counted_accumulate n a p :
  n + 1 <= max_int64 -> counted n a -> counted (n + 1) (accumulate a p).
Proof.
  intros Hn [Hc _]. unfold counted, accumulate. cbn [count cpusum].
  rewrite wrap64_small by (unfold min_int64, max_int64 in *; lia).
  split; lia.
Qed.

Lemma counted_emits n a : counted n a -> emits a = true -> 1 <= count a <= n.
Proof.
  intros [Hc Hz] Hemits.
  destruct (decide (count a = 0)) as [H0|H0]; [|lia].
  unfold emits in Hemits. rewrite (Hz H0) in Hemits. discriminate.
Qed.

Lemma appendAndReset_counted n cpuaverages memaverages a :
  counted n a ->
  divides_by_counts n (appendAndReset cpuaverages memaverages a)
  /\ forall c m a',
       result (appendAndReset cpuaverages memaverages a) = Some (c, m, a') ->
       counted n a'.
Proof.
  intros Ha. unfold divides_by_counts.
  rewrite divisors_appendAndReset, result_appendAndReset.
  destruct (emits a) eqn:Hemits.
  - pose proof (counted_emits n a Ha Hemits). split.
    + by apply Forall_cons_2, Forall_cons_2, Forall_nil_2.
    + intros c m a' [= _ _ <-]. apply counted_no_pulse. lia.
  - split; [constructor|]. by intros c m a' [= _ _ <-].
Qed.

Lemma advance_counted n fuel start rate t durations cpuaverages memaverages a :
  counted n a ->
  divides_by_counts n
    (advance fuel start rate t durations cpuaverages memaverages a)
  /\ forall d c m a',
       result (advance fuel start rate t durations cpuaverages memaverages a)
       = Some (d, c, m, a') ->
       counted n a'.
Proof.
  revert durations cpuaverages memaverages a.
  induction fuel as [|fuel IH]; intros d0 c0 m0 a Ha; cbn [advance];
    destruct (Before _ _).
  - split; [constructor|done].
  - split; [constructor|]. by intros d c m a' [= _ _ _ <-].
  - destruct (appendAndReset_counted n c0 m0 a Ha) as [Hdiv Hnext].
    unfold divides_by_counts in *.
    rewrite divisors_bind, result_bind.
    destruct (result (appendAndReset c0 m0 a)) as [[[c1 m1] a1]|].
    + destruct (IH (wrap64 (d0 + 1)) c1 m1 a1 (Hnext _ _ _ eq_refl))
        as [Hdiv' Hnext'].
      split; [by apply Forall_app|done].
    + split; [by rewrite app_nil_r|done].
  - split; [constructor|]. by intros d c m a' [= _ _ _ <-].
Qed.

Lemma finish_counted n cpuaverages memaverages a :
  counted n a -> divides_by_counts n (finish cpuaverages memaverages a).
Proof.
  intros Ha. unfold divides_by_counts. rewrite divisors_finish.
  destruct (emits a) eqn:Hemits; [|constructor].
  pose proof (counted_emits n a Ha Hemits).
  by apply Forall_cons_2, Forall_cons_2, Forall_nil_2.
Qed.

Lemma scan_counted fuel start len rate pending n top durations
    cpuaverages memaverages a :
  counted n a ->
  n + Z.of_nat (length pending) <= top ->
  top <= max_int64 ->
  divides_by_counts top
    (scan fuel start len rate pending durations cpuaverages memaverages a).
Proof.
  intros Ha Hn Htop.
  assert (Hweaken : forall A k (m : M A), k <= top ->
            divides_by_counts k m -> divides_by_counts top m).
  { intros A k m Hk Hm. unfold divides_by_counts.
    eapply Forall_impl; [exact Hm|]. intros; cbv beta in *; lia. }
  revert n durations cpuaverages memaverages a Ha Hn.
  induction pending as [|p older IH]; intros n d c m a Ha Hn;
    cbn [length] in Hn; cbn [scan].
  { apply (Hweaken _ n); [lia|]. by apply finish_counted. }
  destruct (Before (Time p) _).
  { apply (Hweaken _ n); [lia|]. by apply finish_counted. }
  destruct (After (Time p) _).
  { apply (IH (n + 1)); [|lia]. apply counted_accumulate; [lia|done]. }
  destruct (advance_counted n fuel start rate (Time p) d c m a Ha)
    as [Hdiv Hnext].
  unfold divides_by_counts in *. rewrite divisors_bind.
  apply Forall_app. split.
  { eapply Forall_impl; [exact Hdiv|]. intros; cbv beta in *; lia. }
  destruct (result (advance fuel start rate (Time p) d c m a))
    as [[[[d1 c1] m1] a1]|]; [|constructor].
  specialize (Hnext _ _ _ _ eq_refl).
  cbv beta iota. rewrite divisors_bind. apply Forall_app. split.
  - destruct older; [|constructor].
    apply (Hweaken _ n); [lia|].
    by apply appendAndReset_counted.
  - destruct (result _); [|constructor].
    apply (IH n); [done|lia].
Qed.

(** C10: every division of a sum by a count that [average] performs,
    those of a run that is cut short and those of the call of line 171
    included, divides by a count of at least 1 (and of at most the number
    of pulses, so that it is the count itself and no wrapped value).  This
    holds for every length and every rate; the history is a slice, of a
    length that fits an [int]. *)
Theorem average_divides_by_positive_counts
    (fuel : nat) (now : instant) (s : server) (len rate : Duration) :
  Z.of_nat (length (Statistics s)) <= max_int64 ->
  Forall (fun k => 1 <= k <= Z.of_nat (length (Statistics s)))
         (divisors (average fuel now s len rate)).
Proof.
  intros Hlen. unfold average.
  apply (scan_counted fuel now len rate (rev (Statistics s)) 0); [| |done].
  - by apply counted_no_pulse.
  - rewrite length_rev. lia.
Qed.

Lemma average_divides_by_positive_counts_witness :
  Forall (fun k => 1 <= k <= 2)
    (divisors
       (average 60 40000000000
          (mkServer "web-01"
             [ {| Name := "web-01"; Cpu := 10; Mem := 50; Time := 0 |};
               {| Name := "web-01"; Cpu := 20; Mem := 60;
                  Time := 30 * Second |} ])
          (60 * Minute) Minute)).
Proof.
  apply (average_divides_by_positive_counts 60 40000000000
           (mkServer "web-01"
              [ {| Name := "web-01"; Cpu := 10; Mem := 50; Time := 0 |};
                {| Name := "web-01"; Cpu := 20; Mem := 60;
                   Time := 30 * Second |} ])
           (60 * Minute) Minute).
  vm_compute. discriminate.
Defined.

(** ** The two metrics *)

Lemma follows_emits groups group c m a :
  follows groups group c m a -> emits a = true -> group <> [].
Proof.
  intros (_ & _ & _ & _ & Hcpu & _) Hemits ->.
  unfold emits in Hemits. rewrite Hcpu in Hemits. discriminate.
Qed.

Lemma follows_flush groups group c m a :
  follows groups group c m a ->
  emits a = true ->
  follows (groups ++ [group]) []
    (c ++ [(cpusum a / float64_of_int (count a))%float])
    (m ++ [(memsum a / float64_of_int (count a))%float])
    no_pulse.
Proof.
  intros Hf Hemits. pose proof (follows_emits _ _ _ _ _ Hf Hemits) as Hne.
  destruct Hf as (Hgroups & -> & -> & Hcount & Hcpu & Hmem).
  unfold follows. rewrite !map_app. cbn [map]. unfold mean.
  rewrite Hcount, Hcpu, Hmem.
  repeat split; try done.
  apply Forall_app. split; [done|]. by apply Forall_singleton.
Qed.

Lemma follows_accumulate groups group c m a p :
  follows groups group c m a ->
  Z.of_nat (length group) + 1 <= max_int64 ->
  follows groups (group ++ [p]) c m (accumulate a p).
Proof.
  intros (Hgroups & -> & -> & Hcount & Hcpu & Hmem) Hlen.
  unfold follows, accumulate, total. cbn [count cpusum memsum].
  rewrite !fold_left_app, length_app. cbn [fold_left length].
  rewrite Hcount, Hcpu, Hmem.
  rewrite wrap64_small by (unfold min_int64, max_int64 in *; lia).
  repeat split; try done. lia.
Qed.

Lemma appendAndReset_follows groups group c m a c' m' a' :
  follows groups group c m a ->
  result (appendAndReset c m a) = Some (c', m', a') ->
  exists groups' group',
    follows groups' group' c' m' a'
    /\ concat groups' ++ group' = concat groups ++ group.
Proof.
  intros Hf. rewrite result_appendAndReset.
  destruct (emits a) eqn:Hemits; intros [= <- <- <-].
  - exists (groups ++ [group]), []. split; [by apply follows_flush|].
    rewrite concat_app. cbn [concat]. by rewrite !app_nil_r.
  - by exists groups, group.
Qed.

Lemma advance_follows fuel start rate t durations groups group c m a
    d' c' m' a' :
  follows groups group c m a ->
  result (advance fuel start rate t durations c m a) = Some (d', c', m', a') ->
  exists groups' group',
    follows groups' group' c' m' a'
    /\ concat groups' ++ group' = concat groups ++ group.
Proof.
  revert durations groups group c m a.
  induction fuel as [|fuel IH]; intros d groups group c m a Hf; cbn [advance];
    destruct (Before _ _); try done;
    try (intros [= _ <- <- <-]; by exists groups, group).
  rewrite result_bind.
  destruct (result (appendAndReset c m a)) as [[[c1 m1] a1]|] eqn:Hflush;
    [|done].
  destruct (appendAndReset_follows _ _ _ _ _ _ _ _ Hf Hflush)
    as (groups1 & group1 & Hf1 & Heq1).
  intros Hadv.
  destruct (IH _ _ _ _ _ _ Hf1 Hadv) as (groups2 & group2 & Hf2 & Heq2).
  exists groups2, group2. split; [done|]. by rewrite Heq2.
Qed.

Lemma finish_follows groups group c m a memaverages cpuaverages :
  follows groups group c m a ->
  result (finish c m a) = Some (memaverages, cpuaverages) ->
  exists groups',
    Forall (fun g => g <> []) groups'
    /\ sublist (concat groups') (concat groups ++ group)
    /\ cpuaverages = map (mean Cpu) groups'
    /\ memaverages = map (mean Mem) groups'.
Proof.
  intros Hf. rewrite result_finish.
  destruct (emits a) eqn:Hemits; intros [= <- <-].
  - destruct (follows_flush _ _ _ _ _ Hf Hemits) as (Hg & Hc & Hm & _).
    exists (groups ++ [group]). repeat split; try done.
    rewrite concat_app. cbn [concat]. by rewrite app_nil_r.
  - destruct Hf as (Hg & Hc & Hm & _).
    exists groups. repeat split; try done.
    by apply sublist_inserts_r.
Qed.

Lemma scan_follows fuel start len rate pending seen groups group durations
    c m a memaverages cpuaverages :
  follows groups group c m a ->
  sublist (concat groups ++ group) seen ->
  Z.of_nat (length seen + length pending) <= max_int64 ->
  result (scan fuel start len rate pending durations c m a)
  = Some (memaverages, cpuaverages) ->
  exists groups',
    Forall (fun g => g <> []) groups'
    /\ sublist (concat groups') (seen ++ pending)
    /\ cpuaverages = map (mean Cpu) groups'
    /\ memaverages = map (mean Mem) groups'.
Proof.
  revert seen groups group durations c m a.
  induction pending as [|p older IH];
    intros seen groups group d c m a Hf Hsub Hlen; cbn [scan].
  { intros Hfin.
    destruct (finish_follows _ _ _ _ _ _ _ Hf Hfin) as (gs & Hg & Hs & Hc & Hm).
    exists gs. repeat split; try done.
    rewrite app_nil_r. by etrans. }
  destruct (Before (Time p) _).
  { intros Hfin.
    destruct (finish_follows _ _ _ _ _ _ _ Hf Hfin) as (gs & Hg & Hs & Hc & Hm).
    exists gs. repeat split; try done.
    apply sublist_inserts_r. by etrans. }
  assert (Hnext : forall gs g, sublist (concat gs ++ g) (seen ++ [p]) ->
            Z.of_nat (length (seen ++ [p]) + length older) <= max_int64).
  { intros _ _ _. rewrite length_app. cbn [length] in *. lia. }
  destruct (After (Time p) _).
  { intros Hres.
    assert (Hsub' : sublist (concat groups ++ group ++ [p]) (seen ++ [p])).
    { rewrite app_assoc. by apply sublist_app. }
    destruct (IH (seen ++ [p]) groups (group ++ [p]) d c m (accumulate a p))
      as (gs & Hg & Hs & Hc & Hm); try done.
    - apply follows_accumulate; [done|].
      apply sublist_length in Hsub. rewrite length_app in Hsub.
      cbn [length] in Hlen. lia.
    - by apply (Hnext groups (group ++ [p])).
    - exists gs. repeat split; try done. by rewrite <- app_assoc in Hs. }
  rewrite result_bind.
  destruct (result (advance fuel start rate (Time p) d c m a))
    as [[[[d1 c1] m1] a1]|] eqn:Hadv; [|done].
  destruct (advance_follows _ _ _ _ _ _ _ _ _ _ _ _ _ _ Hf Hadv)
    as (groups1 & group1 & Hf1 & Heq1).
  cbv beta iota. rewrite result_bind.
  destruct (result (match older with
                    | [] => appendAndReset c1 m1 a1
                    | _ :: _ => ret (c1, m1, a1)
                    end)); [|done].
  intros Hres.
  assert (Hsub' : sublist (concat groups1 ++ group1) (seen ++ [p])).
  { rewrite Heq1. by apply sublist_inserts_r. }
  destruct (IH (seen ++ [p]) groups1 group1 d1 c1 m1 a1)
    as (gs & Hg & Hs & Hc & Hm); try done.
  - by apply (Hnext groups1 group1).
  - exists gs. repeat split; try done. by rewrite <- app_assoc in Hs.
Qed.

(** C8: the two lists that [average] returns are the means of the two
    metrics over the same groups of pulses, position by position, and so
    have the same length.  The groups are not empty, and are taken one
    after the other from the history read backwards, no pulse twice. *)
Theorem average_metrics_aligned
    (fuel : nat) (now : instant) (s : server) (len rate : Duration)
    (memaverages cpuaverages : list float) :
  Z.of_nat (length (Statistics s)) <= max_int64 ->
  result (average fuel now s len rate) = Some (memaverages, cpuaverages) ->
  length cpuaverages = length memaverages
  /\ exists groups : list (list pulse),
       Forall (fun g => g <> []) groups
       /\ sublist (concat groups) (rev (Statistics s))
       /\ cpuaverages = map (mean Cpu) groups
       /\ memaverages = map (mean Mem) groups.
Proof.
  intros Hlen Hres. unfold average in Hres.
  destruct (scan_follows fuel now len rate (rev (Statistics s)) [] [] []
              1 [] [] no_pulse memaverages cpuaverages)
    as (gs & Hg & Hs & Hc & Hm); try done.
  - cbn [length]. rewrite length_rev. lia.
  - split; [by rewrite Hc, Hm, !length_map|]. by exists gs.
Qed.

Lemma average_metrics_aligned_witness :
  length [15%float] = length [55%float]
  /\ exists groups : list (list pulse),
       Forall (fun g => g <> []) groups
       /\ sublist (concat groups)
            (rev [ {| Name := "web-01"; Cpu := 10; Mem := 50; Time := 0 |};
                   {| Name := "web-01"; Cpu := 20; Mem := 60;
                      Time := 30 * Second |} ])
       /\ [15%float] = map (mean Cpu) groups
       /\ [55%float] = map (mean Mem) groups.
Proof.
  apply (average_metrics_aligned 60 40000000000
           (mkServer "web-01"
              [ {| Name := "web-01"; Cpu := 10; Mem := 50; Time := 0 |};
                {| Name := "web-01"; Cpu := 20; Mem := 60;
                   Time := 30 * Second |} ])
           (60 * Minute) Minute [55%float] [15%float]).
  - vm_compute. discriminate.
  - vm_compute. reflexivity.
Defined.

(** * Further properties of the code *)

(** ** The store and its handlers *)

(** What [upsert] leaves under each name. *)
Lemma lookup_upsert c s name :
  fst (upsert c s) !! name =
  if decide (name = Name s) then
    Some {| ServerName := match c !! name with
                          | Some srv => ServerName srv
                          | None => Name s
                          end;
            Statistics := history c name ++ [s] |}
  else c !! name.
Proof.
  unfold upsert, history. cbn [fst].
  destruct (decide (name = Name s)) as [->|Hne].
  - rewrite lookup_alter_eq.
    destruct (c !! Name s) as [srv|] eqn:Hsrv.
    + by rewrite Hsrv.
    + by rewrite lookup_insert_eq.
  - rewrite lookup_alter_ne by done.
    destruct (c !! Name s); [done|].
    by rewrite lookup_insert_ne.
Qed.

(** X1: [upsert] never fails.  It appends the pulse to the end of the
    history of its name, creating the server (named as the pulse) when the
    name is new and keeping the server's name otherwise, and leaves what is
    stored under every other name as it was. *)
Theorem upsert_appends (c : Context) (s : pulse) :
  snd (upsert c s) = (200, None)
  /\ (exists srv,
        fst (upsert c s) !! Name s = Some srv
        /\ Statistics srv = history c (Name s) ++ [s]
        /\ ServerName srv = match c !! Name s with
                            | Some old => ServerName old
                            | None => Name s
                            end)
  /\ (forall name, name <> Name s -> fst (upsert c s) !! name = c !! name).
Proof.
  split; [done|split].
  - eexists. rewrite lookup_upsert.
    destruct (decide (Name s = Name s)); [|done]. by repeat split.
  - intros name Hne. rewrite lookup_upsert. by destruct (decide _).
Qed.

(** X2: pulses of different servers may be recorded in either order: the
    map of servers is the same. *)
Theorem upsert_commutes (c : Context) (s1 s2 : pulse) :
  Name s1 <> Name s2 ->
  fst (upsert (fst (upsert c s1)) s2) = fst (upsert (fst (upsert c s2)) s1).
Proof.
  intros Hne. apply map_eq. intros name.
  rewrite !lookup_upsert. unfold history. rewrite !lookup_upsert.
  destruct (decide (name = Name s2)) as [E2|H2],
    (decide (name = Name s1)) as [E1|H1]; try congruence.
Qed.

Lemma upsert_commutes_witness :
  fst (upsert (fst (upsert ∅ {| Name := "a"; Cpu := 1; Mem := 2; Time := 0 |}))
         {| Name := "b"; Cpu := 3; Mem := 4; Time := 5 |})
  = fst (upsert (fst (upsert ∅ {| Name := "b"; Cpu := 3; Mem := 4; Time := 5 |}))
           {| Name := "a"; Cpu := 1; Mem := 2; Time := 0 |}).
Proof.
  apply (upsert_commutes ∅ {| Name := "a"; Cpu := 1; Mem := 2; Time := 0 |}
           {| Name := "b"; Cpu := 3; Mem := 4; Time := 5 |}).
  discriminate.
Defined.

Lemma history_upsert c s name :
  history (fst (upsert c s)) name = history c name ++ named name [s].
Proof.
  unfold named. rewrite filter_cons, filter_nil.
  destruct (decide (Name s = name)) as [<-|Hne].
  - apply upsert_history.
  - rewrite app_nil_r. apply upsert_other. congruence.
Qed.

Lemma history_record ps c name :
  history (record ps c) name = history c name ++ named name ps.
Proof.
  revert c. induction ps as [|s ps IH]; intros c.
  - unfold named. by rewrite filter_nil, app_nil_r.
  - unfold record. cbn [foldl]. fold (record ps (fst (upsert c s))).
    rewrite IH, history_upsert, <- app_assoc. f_equal.
    unfold named. rewrite !filter_cons, filter_nil.
    by destruct (decide (Name s = name)).
Qed.

(** X3: after any pulses were recorded from the start, the history kept
    for a name holds the pulses of that name, all of them, once each and
    in the order of their arrival, and no other pulse. *)
Theorem history_of_recorded (ps : list pulse) (name : string) :
  history (record ps StartTheChallenge) name = named name ps.
Proof.
  rewrite history_record. unfold history, StartTheChallenge.
  by rewrite lookup_empty.
Qed.

Lemma well_keyed_upsert c s : well_keyed c -> well_keyed (fst (upsert c s)).
Proof.
  intros Hc name srv. rewrite lookup_upsert.
  destruct (decide (name = Name s)) as [->|Hne]; [|apply Hc].
  intros [= <-]. cbn [ServerName Statistics]. unfold history.
  destruct (c !! Name s) as [old|] eqn:Hold.
  - destruct (Hc _ _ Hold) as (Hname & _ & Hall). repeat split; [done| |].
    + by destruct (Statistics old).
    + apply Forall_app. split; [done|]. by apply Forall_singleton.
  - repeat split; [done|]. by apply Forall_singleton.
Qed.

Lemma well_keyed_record ps c : well_keyed c -> well_keyed (record ps c).
Proof.
  revert c. induction ps as [|s ps IH]; intros c Hc; [done|].
  apply IH. by apply well_keyed_upsert.
Qed.

(** X4: in a map of servers built by recording pulses from the start,
    every server is stored under its own name, holds pulses of its own
    name only, and holds at least one: a known server with an empty
    history does not arise. *)
Theorem recorded_well_keyed (ps : list pulse) (name : string) (srv : server) :
  record ps StartTheChallenge !! name = Some srv ->
  ServerName srv = name
  /\ Statistics srv <> []
  /\ Forall (fun p => Name p = name) (Statistics srv).
Proof.
  apply (well_keyed_record ps StartTheChallenge).
  intros k v. unfold StartTheChallenge. by rewrite lookup_empty.
Qed.

Lemma recorded_well_keyed_witness :
  ServerName (mkServer "a" [ {| Name := "a"; Cpu := 1; Mem := 2; Time := 0 |} ])
  = "a"
  /\ Statistics
       (mkServer "a" [ {| Name := "a"; Cpu := 1; Mem := 2; Time := 0 |} ]) <> []
  /\ Forall (fun p => Name p = "a")
       (Statistics
          (mkServer "a" [ {| Name := "a"; Cpu := 1; Mem := 2; Time := 0 |} ])).
Proof.
  apply (recorded_well_keyed
           [ {| Name := "a"; Cpu := 1; Mem := 2; Time := 0 |} ] "a").
  vm_compute. reflexivity.
Defined.

(** What [get] answers for a known server that holds a pulse. *)
Lemma get_known fuel now60 now24 c name srv :
  c !! name = Some srv ->
  Statistics srv <> [] ->
  get fuel now60 now24 c name =
  bind (average fuel now60 srv (Minute * 60) (Minute * 1))
    (fun r60 =>
       bind (average fuel now24 srv (Hour * 24) (Hour * 1))
         (fun r24 =>
            ret {| status := 200; err := None;
                   written := Some (Report (fst r60) (snd r60)
                                      (fst r24) (snd r24)) |})).
Proof.
  intros Hsrv Hne. unfold get. rewrite Hsrv.
  destruct (decide _) as [Hlen|_].
  { destruct (Statistics srv); [done|discriminate]. }
  destruct (average fuel now60 srv _ _) as [l60 [[m60 c60]|]]; [|done].
  cbn [bind]. by destruct (average fuel now24 srv _ _) as [l24 [[m24 c24]|]].
Qed.

(** X5: a query for the server of a pulse that was just recorded is
    answered, with fuel for the 60 buckets of the hour, with the status
    200, no error, and a report of averages. *)
Theorem get_after_update
    (fuel : nat) (now60 now24 : instant) (c : Context) (stat : pulse) :
  (60 <= fuel)%nat ->
  exists mem60 cpu60 mem24 cpu24,
    result (get fuel now60 now24 (fst (update c (inr stat))) (Name stat))
    = Some {| status := 200; err := None;
              written := Some (Report mem60 cpu60 mem24 cpu24) |}.
Proof.
  intros Hfuel. cbn [update].
  pose proof (lookup_upsert c stat (Name stat)) as Hsrv.
  destruct (decide (Name stat = Name stat)); [|done].
  rewrite (get_known _ _ _ _ _ _ Hsrv); [|by destruct (history c (Name stat))].
  change (Minute * 1) with Minute. change (Hour * 1) with Hour.
  match goal with
  | |- context [average fuel now60 ?s _ Minute] =>
      destruct (average_returns_Minute fuel now60 s (Minute * 60))
        as [[m60 c60] H60]; [done|by vm_compute|];
      destruct (average_returns_Hour fuel now24 s (Hour * 24))
        as [[m24 c24] H24]; [lia|by vm_compute|]
  end.
  exists m60, c60, m24, c24.
  rewrite result_bind, H60. cbv beta. by rewrite result_bind, H24.
Qed.

Lemma get_after_update_witness :
  exists mem60 cpu60 mem24 cpu24,
    result (get 60 100 100
              (fst (update ∅ (inr {| Name := "a"; Cpu := 1; Mem := 2; Time := 90 |})))
              (Name {| Name := "a"; Cpu := 1; Mem := 2; Time := 90 |}))
    = Some {| status := 200; err := None;
              written := Some (Report mem60 cpu60 mem24 cpu24) |}.
Proof.
  apply (get_after_update 60 100 100 ∅
           {| Name := "a"; Cpu := 1; Mem := 2; Time := 90 |}).
  lia.
Defined.

(** X6: the answers of [get].  To an unknown name: the status 500 with
    an error, nothing written.  To a known server: the status 200 and no
    error, with a line of text when the server holds no pulse, and
    otherwise a report that carries what the two calls of [average]
    returned, the memory averages before the cpu averages, the hour before
    the day.  No other status is returned. *)
Theorem get_answers
    (fuel : nat) (now60 now24 : instant) (c : Context) (name : string)
    (r : response) :
  result (get fuel now60 now24 c name) = Some r ->
  (c !! name = None
   /\ r = {| status := 500;
             err := Some ("No server information found for '" +:+ name +:+ "'.");
             written := None |})
  \/ (exists srv,
        c !! name = Some srv /\ status r = 200 /\ err r = None
        /\ ((Statistics srv = []
             /\ written r = Some (Text ("No update information for server "
                                        +:+ name +:+ " found.")))
            \/ (Statistics srv <> []
                /\ exists mem60 cpu60 mem24 cpu24,
                     result (average fuel now60 srv (Minute * 60) (Minute * 1))
                     = Some (mem60, cpu60)
                     /\ result (average fuel now24 srv (Hour * 24) (Hour * 1))
                        = Some (mem24, cpu24)
                     /\ written r = Some (Report mem60 cpu60 mem24 cpu24)))).
Proof.
  destruct (c !! name) as [srv|] eqn:Hsrv.
  - intros Hr. right. exists srv. split; [done|].
    destruct (Statistics srv) as [|p stats] eqn:Hstats.
    + unfold get in Hr. rewrite Hsrv, Hstats in Hr. cbn in Hr.
      injection Hr as <-. repeat split; try done. by left.
    + rewrite (get_known _ _ _ _ _ _ Hsrv) in Hr by by rewrite Hstats.
      rewrite result_bind in Hr.
      destruct (result (average fuel now60 srv _ _)) as [[m60 c60]|]; [|done].
      cbv beta in Hr. rewrite result_bind in Hr.
      destruct (result (average fuel now24 srv _ _)) as [[m24 c24]|]; [|done].
      injection Hr as <-. repeat split; try done.
      right. split; [done|]. by exists m60, c60, m24, c24.
  - intros Hr. left. split; [done|].
    unfold get in Hr. rewrite Hsrv in Hr. by injection Hr as <-.
Qed.

Lemma get_answers_witness :
  (∅ : Context) !! "ghost" = None
  /\ {| status := 500;
        err := Some ("No server information found for '" +:+ "ghost" +:+ "'.");
        written := None |}
     = {| status := 500;
          err := Some ("No server information found for '" +:+ "ghost" +:+ "'.");
          written := None |}
  \/ (exists srv,
        (∅ : Context) !! "ghost" = Some srv /\ 500 = 200 /\ Some ("No server information found for '" +:+ "ghost" +:+ "'.") = None
        /\ ((Statistics srv = []
             /\ None = Some (Text ("No update information for server "
                                        +:+ "ghost" +:+ " found.")))
            \/ (Statistics srv <> []
                /\ exists mem60 cpu60 mem24 cpu24,
                     result (average 60 0 srv (Minute * 60) (Minute * 1))
                     = Some (mem60, cpu60)
                     /\ result (average 60 0 srv (Hour * 24) (Hour * 1))
                        = Some (mem24, cpu24)
                     /\ None = Some (Report mem60 cpu60 mem24 cpu24)))).
Proof.
  apply (get_answers 60 0 0 ∅ "ghost"
           {| status := 500;
              err := Some ("No server information found for '" +:+ "ghost" +:+ "'.");
              written := None |}).
  reflexivity.
Defined.

(** X7: a query after pulses were recorded from the start sees the pulses
    of the queried name and nothing else.  When no pulse carries the name
    the answer is the error of an unknown server; otherwise it is the
    report computed from the pulses of that name in their order of arrival.
    The line for a known server without a pulse is never written. *)
Theorem get_of_recorded
    (fuel : nat) (now60 now24 : instant) (ps : list pulse) (name : string) :
  get fuel now60 now24 (record ps StartTheChallenge) name =
  match named name ps with
  | [] =>
      ret {| status := 500;
             err := Some ("No server information found for '" +:+ name +:+ "'.");
             written := None |}
  | _ :: _ =>
      get fuel now60 now24
        {[ name := mkServer name (named name ps) ]} name
  end.
Proof.
  pose proof (history_record ps StartTheChallenge name) as Hhist.
  unfold history at 2 in Hhist. unfold StartTheChallenge in Hhist at 2.
  rewrite lookup_empty in Hhist. cbn [app] in Hhist.
  unfold history in Hhist.
  destruct (record ps StartTheChallenge !! name) as [srv|] eqn:Hsrv.
  - assert (Hkeyed : well_keyed (record ps StartTheChallenge)).
    { apply well_keyed_record. intros k v. unfold StartTheChallenge.
      by rewrite lookup_empty. }
    destruct (Hkeyed _ _ Hsrv) as (Hname & Hne & _).
    destruct srv as [sname stats]. cbn [ServerName Statistics] in *.
    subst sname stats.
    destruct (named name ps) as [|p rest] eqn:Hnamed; [done|].
    rewrite (get_known _ _ _ _ _ _ Hsrv) by done.
    by rewrite (get_known fuel now60 now24 {[ name := mkServer name (p :: rest) ]}
                  name (mkServer name (p :: rest)))
      by (by rewrite ?lookup_singleton_eq).
  - rewrite <- Hhist. unfold get. by rewrite Hsrv.
Qed.

(** X8: what is sent for [/get/{server}].  For an unknown name: one call
    of [http.Error] with the status 500 and its standard text, the message
    of the error of [get] being dropped.  For a known server: what [get]
    wrote, and nothing more.  [http.NotFound] is never called. *)
Theorem serve_get_sends
    (StatusText : Z -> string) (fuel : nat) (now60 now24 : instant)
    (c : Context) (name : string) (calls : list sent) :
  serve_get StatusText fuel now60 now24 c name = Some calls ->
  (c !! name = None /\ calls = [HttpError (StatusText 500) 500])
  \/ (is_Some (c !! name) /\ exists b, calls = [Wrote b]).
Proof.
  unfold serve_get, get.
  destruct (c !! name) as [srv|]; [|intros [= <-]; by left].
  intros Hcalls. right. split; [done|].
  destruct (decide _); [injection Hcalls as <-; by eexists|].
  rewrite result_bind in Hcalls.
  destruct (result (average fuel now60 srv _ _)) as [[m60 c60]|]; [|done].
  cbv beta iota in Hcalls. rewrite result_bind in Hcalls.
  destruct (result (average fuel now24 srv _ _)) as [[m24 c24]|]; [|done].
  injection Hcalls as <-. by eexists.
Qed.

(** X9: after any requests of [/update], served one after the other from
    the start, the history kept for a name holds the pulses of that name
    that were decoded, in the order of the requests: a request that could
    not be decoded leaves no trace in the store. *)
Theorem history_after_updates (ds : list (string + pulse)) (name : string) :
  history (foldl (fun c d => fst (update c d)) StartTheChallenge ds) name
  = named name (decoded_pulses ds).
Proof.
  assert (Hrec : forall c,
            foldl (fun c d => fst (update c d)) c ds
            = record (decoded_pulses ds) c).
  { induction ds as [|[e|stat] ds IH]; intros c; [done| |].
    - cbn [foldl update fst]. apply IH.
    - cbn [foldl update]. rewrite IH. done. }
  rewrite Hrec, history_record. unfold history, StartTheChallenge.
  by rewrite lookup_empty.
Qed.

(** X10: what is sent for [/update].  A body that cannot be decoded gets
    one call of [http.Error] with the status 500 and leaves the map of
    servers as it was; a decoded pulse is recorded and nothing is written,
    neither a body nor a status. *)
Theorem serve_update_sends
    (StatusText : Z -> string) (c : Context) (decoded : string + pulse) :
  serve_update StatusText c decoded =
  match decoded with
  | inl _ => (c, [HttpError (StatusText 500) 500])
  | inr stat => (fst (upsert c stat), [])
  end.
Proof. by destruct decoded. Qed.

(** ** More on average *)

(** X11: [average] returns two empty lists, and divides nothing, when the
    history is empty and when the pulse appended last is older than the
    window, whatever was appended before it. *)
Theorem average_of_stale_history
    (fuel : nat) (now : instant) (s : server) (len rate : Duration) :
  0 <= len <= max_int64 ->
  (forall p, last (Statistics s) = Some p -> Time p < now - len) ->
  average fuel now s len rate = ret ([], []).
Proof.
  intros Hlen Hlast. unfold average.
  destruct s as [name stats]. cbn [Statistics] in *.
  induction stats as [|p stats _] using rev_ind; [reflexivity|].
  rewrite rev_unit. cbn [scan].
  rewrite wrap64_small by (unfold min_int64, max_int64 in *; lia).
  unfold Before, Add.
  specialize (Hlast p (last_snoc _ _)).
  replace (Time p <? now + -1 * len) with true
    by (symmetry; apply Z.ltb_lt; lia).
  reflexivity.
Qed.

Lemma average_of_stale_history_witness :
  average 0 (100 * Hour)
    (mkServer "a" [ {| Name := "a"; Cpu := 1; Mem := 2; Time := 99 * Hour |};
                    {| Name := "a"; Cpu := 3; Mem := 4; Time := 98 * Hour |} ])
    Hour Minute
  = ret ([], []).
Proof.
  apply (average_of_stale_history 0 (100 * Hour)
           (mkServer "a"
              [ {| Name := "a"; Cpu := 1; Mem := 2; Time := 99 * Hour |};
                {| Name := "a"; Cpu := 3; Mem := 4; Time := 98 * Hour |} ])
           Hour Minute).
  - vm_compute. split; discriminate.
  - intros p [= <-]. vm_compute. reflexivity.
Defined.

(** X12: for every window, a pulse older than the window ends the scan:
    the result is computed from the pulses appended after it, and nothing
    appended before it is read, be it inside the window. *)
Theorem average_stops_at_pulse_older_than_window
    (fuel : nat) (now : instant) (name : string)
    (before : list pulse) (s : pulse) (after : list pulse)
    (len rate : Duration) :
  0 <= len <= max_int64 ->
  Time s < now - len ->
  result (average fuel now (mkServer name (before ++ s :: after)) len rate)
  = result (average fuel now (mkServer name after) len rate).
Proof.
  intros Hlen Hs. unfold average. cbn [Statistics].
  rewrite rev_app_distr. cbn [rev]. rewrite <- app_assoc. cbn [app].
  apply scan_stops_at_old.
  rewrite wrap64_small by (unfold min_int64, max_int64 in *; lia).
  unfold Before, Add. apply Z.ltb_lt. lia.
Qed.

Lemma average_stops_at_pulse_older_than_window_witness :
  result (average 60 (100 * Hour)
            (mkServer "a"
               ([ {| Name := "a"; Cpu := 1; Mem := 2;
                     Time := 100 * Hour - 10 * Second |} ]
                ++ {| Name := "a"; Cpu := 1; Mem := 2; Time := 98 * Hour |}
                :: [ {| Name := "a"; Cpu := 5; Mem := 6;
                        Time := 100 * Hour - 5 * Second |} ]))
            Hour Minute)
  = result (average 60 (100 * Hour)
              (mkServer "a"
                 [ {| Name := "a"; Cpu := 5; Mem := 6;
                      Time := 100 * Hour - 5 * Second |} ])
              Hour Minute).
Proof.
  apply (average_stops_at_pulse_older_than_window 60 (100 * Hour) "a"
           [ {| Name := "a"; Cpu := 1; Mem := 2;
                Time := 100 * Hour - 10 * Second |} ]
           {| Name := "a"; Cpu := 1; Mem := 2; Time := 98 * Hour |}
           [ {| Name := "a"; Cpu := 5; Mem := 6;
                Time := 100 * Hour - 5 * Second |} ]
           Hour Minute).
  - vm_compute. split; discriminate.
  - vm_compute. reflexivity.
Defined.

Lemma scan_same_loads_and_ages d fuel start len rate pending pending'
    durations cpuaverages memaverages a :
  Forall2 (fun p q => Cpu q = Cpu p /\ Mem q = Mem p /\ Time q = Time p + d)
          pending pending' ->
  scan fuel (start + d) len rate pending' durations cpuaverages memaverages a
  = scan fuel start len rate pending durations cpuaverages memaverages a.
Proof.
  intros Hsame. revert durations cpuaverages memaverages a.
  induction Hsame as [|p q older older' (Hcpu & Hmem & Htime) Hrest IH];
    intros durations c m a; [done|].
  cbn [scan]. rewrite Htime, Before_delay, After_delay.
  destruct (Before _ _); [done|].
  destruct (After _ _).
  - rewrite IH. unfold accumulate. by rewrite Hcpu, Hmem.
  - rewrite advance_delay.
    destruct (advance _ _ _ _ _ _ _ _) as [l [[[[d' c'] m'] a']|]]; [|done].
    cbn [bind]. rewrite IH.
    by destruct Hrest.
Qed.

(** X13: [average] reads the loads of the pulses and their ages only.
    Two histories whose pulses have, one by one, the same loads and
    instants [d] apart give the same averages when queried [d] apart;
    the names of the pulses and of the server are not read. *)
Theorem average_reads_loads_and_ages
    (fuel : nat) (now : instant) (d : Duration) (s s' : server)
    (len rate : Duration) :
  Forall2 (fun p q => Cpu q = Cpu p /\ Mem q = Mem p /\ Time q = Time p + d)
          (Statistics s) (Statistics s') ->
  average fuel (now + d) s' len rate = average fuel now s len rate.
Proof.
  intros Hsame. unfold average. apply scan_same_loads_and_ages.
  induction Hsame as [|p q l l' Hpq Hl IH]; [constructor|].
  cbn [rev]. apply Forall2_app; [done|].
  by apply Forall2_cons.
Qed.

Lemma average_reads_loads_and_ages_witness :
  average 60 (100 + 5)
    (mkServer "b" [ {| Name := "c"; Cpu := 1; Mem := 2; Time := 90 + 5 |} ])
    Hour Minute
  = average 60 100
      (mkServer "a" [ {| Name := "a"; Cpu := 1; Mem := 2; Time := 90 |} ])
      Hour Minute.
Proof.
  apply (average_reads_loads_and_ages 60 100 5
           (mkServer "a" [ {| Name := "a"; Cpu := 1; Mem := 2; Time := 90 |} ])
           (mkServer "b" [ {| Name := "c"; Cpu := 1; Mem := 2; Time := 90 + 5 |} ])
           Hour Minute).
  constructor; [|constructor]. repeat split; reflexivity.
Defined.

(** X14: when the pulse appended last is not after the older end of the
    first bucket, its loads are not read: a history that ends with a
    pulse of the same instant and other loads gives the same averages and
    the same divisions. *)
Theorem average_ignores_loads_of_stale_newest_pulse
    (fuel : nat) (now : instant) (name : string) (before : list pulse)
    (p p' : pulse) (len rate : Duration) :
  Time p' = Time p ->
  Time p <= now + bucket_offset 1 rate ->
  average fuel now (mkServer name (before ++ [p'])) len rate
  = average fuel now (mkServer name (before ++ [p])) len rate.
Proof.
  intros Htime Hstale. unfold average. cbn [Statistics].
  rewrite !rev_unit. apply scan_drops_pulse_that_changes_bucket; [done|].
  unfold After, Add. apply Z.ltb_ge. lia.
Qed.

Lemma average_ignores_loads_of_stale_newest_pulse_witness :
  average 60 (100 * Hour)
    (mkServer "a"
       ([] ++ [ {| Name := "a"; Cpu := 7; Mem := 8;
                   Time := 100 * Hour - 90 * Second |} ]))
    Hour Minute
  = average 60 (100 * Hour)
      (mkServer "a"
         ([] ++ [ {| Name := "a"; Cpu := 1; Mem := 2;
                     Time := 100 * Hour - 90 * Second |} ]))
      Hour Minute.
Proof.
  apply (average_ignores_loads_of_stale_newest_pulse 60 (100 * Hour) "a" []
           {| Name := "a"; Cpu := 1; Mem := 2;
              Time := 100 * Hour - 90 * Second |}
           {| Name := "a"; Cpu := 7; Mem := 8;
              Time := 100 * Hour - 90 * Second |}
           Hour Minute).
  - reflexivity.
  - vm_compute. discriminate.
Defined.

Lemma serve_get_sends_witness :
  ((∅ : Context) !! "ghost" = None
   /\ [HttpError "Internal Server Error" 500]
      = [HttpError ((fun _ => "Internal Server Error") 500) 500])
  \/ (is_Some ((∅ : Context) !! "ghost")
      /\ exists b, [HttpError "Internal Server Error" 500] = [Wrote b]).
Proof.
  apply (serve_get_sends (fun _ => "Internal Server Error") 60 0 0 ∅ "ghost"
           [HttpError "Internal Server Error" 500]).
  reflexivity.
Defined.

(** ** Buckets without pulses *)

(** The inner loop appends nothing to the lists when the sums are those
    of no pulse. *)
Lemma advance_no_pulse fuel start rate t durations c m d' c' m' a' :
  result (advance fuel start rate t durations c m no_pulse)
  = Some (d', c', m', a') ->
  c' = c /\ m' = m /\ a' = no_pulse.
Proof.
  revert durations.
  induction fuel as [|fuel IH]; intros d; cbn [advance];
    destruct (Before _ _); try done;
    try (by intros [= _ <- <- <-]).
  rewrite result_bind, result_appendAndReset.
  change (emits no_pulse) with false. apply IH.
Qed.

(** X15: however many buckets the inner loop moves past for a pulse, it
    appends at most one average to each list, that of the sums so far,
    and then leaves the sums of no pulse; otherwise it leaves the lists
    and the sums as they are.  A bucket without pulses gets no entry. *)
Theorem advance_emits_at_most_once
    (fuel : nat) (start : instant) (rate : Duration) (t : instant)
    (durations : Z) (c m : list float) (a : averageAcc)
    (d' : Z) (c' m' : list float) (a' : averageAcc) :
  result (advance fuel start rate t durations c m a) = Some (d', c', m', a') ->
  (c' = c /\ m' = m /\ a' = a)
  \/ (emits a = true
      /\ c' = c ++ [(cpusum a / float64_of_int (count a))%float]
      /\ m' = m ++ [(memsum a / float64_of_int (count a))%float]
      /\ a' = no_pulse).
Proof.
  destruct fuel as [|fuel]; cbn [advance];
    destruct (Before _ _); try done;
    try (intros [= _ <- <- <-]; by left).
  rewrite result_bind, result_appendAndReset.
  destruct (emits a) eqn:Hemits; intros Hadv.
  - apply advance_no_pulse in Hadv. by right.
  - left. revert durations Hadv.
    induction fuel as [|fuel IH]; intros d; cbn [advance];
      destruct (Before _ _); try done;
      try (by intros [= _ <- <- <-]).
    rewrite result_bind, result_appendAndReset, Hemits. apply IH.
Qed.

Lemma advance_emits_at_most_once_witness :
  ([2%float] = [] /\ [4%float] = []
   /\ no_pulse = {| count := 1; memsum := 4; cpusum := 2 |})
  \/ (emits {| count := 1; memsum := 4; cpusum := 2 |} = true
      /\ [2%float]
         = [] ++ [(cpusum {| count := 1; memsum := 4; cpusum := 2 |}
                   / float64_of_int
                       (count {| count := 1; memsum := 4; cpusum := 2 |}))%float]
      /\ [4%float]
         = [] ++ [(memsum {| count := 1; memsum := 4; cpusum := 2 |}
                   / float64_of_int
                       (count {| count := 1; memsum := 4; cpusum := 2 |}))%float]
      /\ no_pulse = no_pulse).
Proof.
  apply (advance_emits_at_most_once 60 (100 * Hour) Minute (99 * Hour) 1
           [] [] {| count := 1; memsum := 4; cpusum := 2 |}
           60 [2%float] [4%float] no_pulse).
  vm_compute. reflexivity.
Defined.

(** ** The number of averages *)

(** A window of [k] buckets whose offsets are exact: [durations] stays
    within [k] and ahead of the number of averages. *)
Section WindowBuckets.
Variables (rate : Duration) (k : Z) (len : Duration).
Hypothesis rate_pos : 0 < rate.
Hypothesis k_pos : 1 <= k.
Hypothesis k_int64 : k + 1 <= max_int64.
Hypothesis offsets :
  forall d, 1 <= d <= k + 1 -> bucket_offset d rate = - d * rate.
Hypothesis len_window : 0 <= len <= k * rate.
Hypothesis len_int64 : len <= max_int64.

Lemma advance_buckets fuel start t durations c m a d' c' m' a' :
  1 <= durations <= k ->
  start - len <= t ->
  Z.of_nat (length c) + 1 <= durations ->
  Z.of_nat (length m) + 1 <= durations ->
  result (advance fuel start rate t durations c m a) = Some (d', c', m', a') ->
  1 <= d' <= k
  /\ Z.of_nat (length c') + 1 <= d' /\ Z.of_nat (length m') + 1 <= d'.
Proof.
  revert durations c m a.
  induction fuel as [|fuel IH]; intros d c m a Hd Ht Hc Hm; cbn [advance];
    rewrite (offsets d) by lia; unfold Before, Add;
    destruct (Z.ltb_spec t (start + - d * rate)) as [Hlt|Hge]; try done;
    try (intros [= <- <- <- _]; lia).
  assert (d * rate < k * rate) by lia.
  assert (d < k) by nia.
  rewrite result_bind, result_appendAndReset.
  rewrite wrap64_small by (unfold min_int64, max_int64 in *; lia).
  destruct (emits a); apply IH; rewrite ?length_app; cbn [length]; lia.
Qed.

Lemma scan_buckets fuel start pending durations c m a memaverages cpuaverages :
  1 <= durations <= k ->
  Z.of_nat (length c) + 1 <= durations ->
  Z.of_nat (length m) + 1 <= durations ->
  result (scan fuel start len rate pending durations c m a)
  = Some (memaverages, cpuaverages) ->
  Z.of_nat (length memaverages) <= k /\ Z.of_nat (length cpuaverages) <= k.
Proof.
  assert (Hfinish : forall d c m a,
            1 <= d <= k ->
            Z.of_nat (length c) + 1 <= d ->
            Z.of_nat (length m) + 1 <= d ->
            result (finish c m a) = Some (memaverages, cpuaverages) ->
            Z.of_nat (length memaverages) <= k
            /\ Z.of_nat (length cpuaverages) <= k).
  { intros d0 c0 m0 a0 Hd Hc Hm. rewrite result_finish.
    destruct (emits a0); intros [= <- <-]; rewrite ?length_app;
      cbn [length]; lia. }
  revert durations c m a.
  induction pending as [|p older IH]; intros d c m a Hd Hc Hm; cbn [scan];
    [intros Hr; by apply (Hfinish d c m a)|].
  rewrite (window_start rate k len) by done. unfold Before at 1.
  destruct (Z.ltb_spec (Time p) (start - len)) as [Hold|Hin];
    [intros Hr; by apply (Hfinish d c m a)|].
  destruct (After _ _); [by apply IH|].
  rewrite result_bind.
  destruct (result (advance fuel start rate (Time p) d c m a))
    as [[[[d1 c1] m1] a1]|] eqn:Hadv; [|done].
  destruct (advance_buckets _ _ _ _ _ _ _ _ _ _ _ Hd Hin Hc Hm Hadv)
    as (Hd1 & Hc1 & Hm1).
  cbv beta iota. rewrite result_bind.
  destruct (result (match older with
                    | [] => appendAndReset c1 m1 a1
                    | _ :: _ => ret (c1, m1, a1)
                    end)); [|done].
  by apply IH.
Qed.

(** A pulse alone in its history and a bucket old or more is read by no
    sum: the lists stay empty. *)
Lemma scan_lone_stale_pulse fuel start p :
  k <= Z.of_nat fuel ->
  start - len <= Time p <= start - rate ->
  result (scan fuel start len rate [p] 1 [] [] no_pulse) = Some ([], []).
Proof.
  intros Hfuel Hp. cbn [scan].
  rewrite (window_start rate k len) by done.
  rewrite (offsets 1) by lia. unfold Before at 1, After, Add.
  replace (Time p <? start - len) with false
    by (symmetry; apply Z.ltb_ge; lia).
  replace (start + - (1) * rate <? Time p) with false
    by (symmetry; apply Z.ltb_ge; lia).
  destruct (advance_returns rate k len rate_pos k_int64 offsets len_window
              fuel start (Time p) 1 [] [] no_pulse)
    as (d' & c' & m' & a' & Hadv & _); [lia..|].
  rewrite result_bind, Hadv.
  destruct (advance_no_pulse _ _ _ _ _ _ _ _ _ _ _ Hadv) as (-> & -> & ->).
  reflexivity.
Qed.
End WindowBuckets.

Lemma average_buckets_Minute fuel now s memaverages cpuaverages :
  result (average fuel now s (Minute * 60) (Minute * 1))
  = Some (memaverages, cpuaverages) ->
  (length memaverages <= 60 /\ length cpuaverages <= 60)%nat.
Proof.
  unfold average. change (Minute * 1) with Minute. intros Hres.
  assert (Z.of_nat (length memaverages) <= 60
          /\ Z.of_nat (length cpuaverages) <= 60); [|lia].
  refine (scan_buckets Minute 60 (Minute * 60) _ _ _ _ _
            _ _ _ _ _ _ _ _ _ _ _ _ Hres).
  - lia.
  - by vm_compute.
  - intros d Hd. apply bucket_offset_Minute. lia.
  - by vm_compute.
  - by vm_compute.
  - lia.
  - cbn [length]. lia.
  - cbn [length]. lia.
Qed.

Lemma average_buckets_Hour fuel now s memaverages cpuaverages :
  result (average fuel now s (Hour * 24) (Hour * 1))
  = Some (memaverages, cpuaverages) ->
  (length memaverages <= 24 /\ length cpuaverages <= 24)%nat.
Proof.
  unfold average. change (Hour * 1) with Hour. intros Hres.
  assert (Z.of_nat (length memaverages) <= 24
          /\ Z.of_nat (length cpuaverages) <= 24); [|lia].
  refine (scan_buckets Hour 24 (Hour * 24) _ _ _ _ _
            _ _ _ _ _ _ _ _ _ _ _ _ Hres).
  - lia.
  - by vm_compute.
  - intros d Hd. apply bucket_offset_Hour. lia.
  - by vm_compute.
  - by vm_compute.
  - lia.
  - cbn [length]. lia.
  - cbn [length]. lia.
Qed.

(** X16: the reports of [get] are bounded by the buckets of its windows:
    at most 60 averages of each metric for the hour and at most 24 for
    the day, however many pulses the server holds. *)
Theorem get_report_sizes
    (fuel : nat) (now60 now24 : instant) (c : Context) (name : string)
    (r : response) (mem60 cpu60 mem24 cpu24 : list float) :
  result (get fuel now60 now24 c name) = Some r ->
  written r = Some (Report mem60 cpu60 mem24 cpu24) ->
  (length mem60 <= 60 /\ length cpu60 <= 60
   /\ length mem24 <= 24 /\ length cpu24 <= 24)%nat.
Proof.
  unfold get. destruct (c !! name) as [srv|]; [|by intros [= <-]].
  destruct (decide _); [by intros [= <-]|].
  rewrite result_bind.
  destruct (result (average fuel now60 srv _ _)) as [[m60 c60]|] eqn:H60;
    [|done].
  cbv beta iota. rewrite result_bind.
  destruct (result (average fuel now24 srv _ _)) as [[m24 c24]|] eqn:H24;
    [|done].
  intros [= <-]. cbn [written]. intros [= <- <- <- <-].
  apply average_buckets_Minute in H60. apply average_buckets_Hour in H24.
  lia.
Qed.

Lemma get_report_sizes_witness :
  (length [2%float] <= 60 /\ length [1%float] <= 60
   /\ length [2%float] <= 24 /\ length [1%float] <= 24)%nat.
Proof.
  apply (get_report_sizes 60 100 100
           {[ "a" := mkServer "a"
                       [ {| Name := "a"; Cpu := 1; Mem := 2; Time := 90 |} ] ]}
           "a"
           {| status := 200; err := None;
              written := Some (Report [2%float] [1%float] [2%float] [1%float]) |}
           [2%float] [1%float] [2%float] [1%float]).
  - vm_compute. reflexivity.
  - reflexivity.
Defined.

(** X17: a server whose only pulse is at least a bucket old gets no
    average at all: for a pulse inside the hour and a minute old or more,
    the averages of the hour are two empty lists, and so are those of the
    day for a pulse inside the day and an hour old or more. *)
Theorem average_of_lone_stale_pulse
    (fuel : nat) (now : instant) (name : string) (p : pulse)
    (len rate : Duration) :
  (60 <= fuel)%nat ->
  (len = Minute * 60 /\ rate = Minute) \/ (len = Hour * 24 /\ rate = Hour) ->
  now - len <= Time p <= now - rate ->
  result (average fuel now (mkServer name [p]) len rate) = Some ([], []).
Proof.
  intros Hfuel [[-> ->]|[-> ->]] Hp; unfold average; cbn [Statistics rev app].
  - refine (scan_lone_stale_pulse Minute 60 (Minute * 60) _ _ _ _ _ _
              fuel now p _ Hp).
    + done.
    + lia.
    + by vm_compute.
    + intros d Hd. apply bucket_offset_Minute. lia.
    + by vm_compute.
    + by vm_compute.
    + lia.
  - refine (scan_lone_stale_pulse Hour 24 (Hour * 24) _ _ _ _ _ _
              fuel now p _ Hp).
    + done.
    + lia.
    + by vm_compute.
    + intros d Hd. apply bucket_offset_Hour. lia.
    + by vm_compute.
    + by vm_compute.
    + lia.
Qed.

Lemma average_of_lone_stale_pulse_witness :
  result (average 60 (100 * Hour)
            (mkServer "a" [ {| Name := "a"; Cpu := 1; Mem := 2;
                               Time := 100 * Hour - 2 * Minute |} ])
            (Minute * 60) Minute)
  = Some ([], []).
Proof.
  apply (average_of_lone_stale_pulse 60 (100 * Hour) "a"
           {| Name := "a"; Cpu := 1; Mem := 2;
              Time := 100 * Hour - 2 * Minute |}
           (Minute * 60) Minute).
  - lia.
  - left. split; reflexivity.
  - vm_compute. split; discriminate.
Defined.

(** ** The newest bucket *)

Lemma scan_newest_bucket fuel start len rate pending group a :
  Forall (fun p => start + wrap64 (-1 * len) <= Time p
                   /\ start + bucket_offset 1 rate < Time p) pending ->
  follows [] group [] [] a ->
  Z.of_nat (length group + length pending) <= max_int64 ->
  result (scan fuel start len rate pending 1 [] [] a)
  = Some (if (0 <? total Cpu (group ++ pending))%float
          then ([mean Mem (group ++ pending)], [mean Cpu (group ++ pending)])
          else ([], [])).
Proof.
  intros Hall. revert group a.
  induction Hall as [|p older [Hin Hnew] _ IH]; intros group a Hf Hlen.
  - cbn [scan]. rewrite result_finish, app_nil_r.
    destruct Hf as (_ & _ & _ & Hcount & Hcpu & Hmem).
    unfold emits, mean. by rewrite Hcount, Hcpu, Hmem.
  - cbn [scan]. unfold Before, After, Add.
    replace (Time p <? start + wrap64 (-1 * len)) with false
      by (symmetry; apply Z.ltb_ge; lia).
    replace (start + bucket_offset 1 rate <? Time p) with true
      by (symmetry; apply Z.ltb_lt; lia).
    rewrite (IH (group ++ [p]) (accumulate a p)).
    + by rewrite <- app_assoc.
    + apply follows_accumulate; [done|]. cbn [length] in Hlen. lia.
    + rewrite length_app. cbn [length] in *. lia.
Qed.

(** X18: when every pulse of the history is inside the window and after
    the older end of the first bucket (a pulse stamped in the future is),
    [average] returns one average per metric, taken over all the pulses:
    the loads added up from the pulse appended last to the first, divided
    by their number.  This is so when the cpu loads add up to more than
    zero; otherwise it returns two empty lists, whatever the memory loads. *)
Theorem average_of_newest_bucket
    (fuel : nat) (now : instant) (s : server) (len rate : Duration) :
  Z.of_nat (length (Statistics s)) <= max_int64 ->
  Forall (fun p => now + wrap64 (-1 * len) <= Time p
                   /\ now + bucket_offset 1 rate < Time p) (Statistics s) ->
  result (average fuel now s len rate)
  = Some (if (0 <? total Cpu (rev (Statistics s)))%float
          then ([mean Mem (rev (Statistics s))], [mean Cpu (rev (Statistics s))])
          else ([], [])).
Proof.
  intros Hlen Hall. unfold average.
  rewrite (scan_newest_bucket fuel now len rate (rev (Statistics s)) [] no_pulse).
  - done.
  - apply Forall_forall. intros p Hp. rewrite Forall_forall in Hall.
    apply Hall. apply list_elem_of_In. apply list_elem_of_In in Hp.
    by apply in_rev.
  - by repeat split.
  - cbn [length]. rewrite length_rev. lia.
Qed.

Lemma average_of_newest_bucket_witness :
  result (average 0 (100 * Hour)
            (mkServer "a"
               [ {| Name := "a"; Cpu := 0; Mem := 50;
                    Time := 100 * Hour - 30 * Second |};
                 {| Name := "a"; Cpu := 0; Mem := 60;
                    Time := 100 * Hour + 30 * Second |} ])
            (Minute * 60) Minute)
  = Some ([], []).
Proof.
  apply (average_of_newest_bucket 0 (100 * Hour)
           (mkServer "a"
              [ {| Name := "a"; Cpu := 0; Mem := 50;
                   Time := 100 * Hour - 30 * Second |};
                {| Name := "a"; Cpu := 0; Mem := 60;
                   Time := 100 * Hour + 30 * Second |} ])
           (Minute * 60) Minute).
  - vm_compute. discriminate.
  - repeat constructor; vm_compute; congruence.
Defined.

(** ** A rate of zero *)

(** With a rate of zero every bucket ends at [start]: the product of a
    float and zero is a zero or not a number, and both give the offset 0. *)
Lemma bucket_offset_rate_0 d : bucket_offset d 0 = 0.
Proof.
  unfold bucket_offset, int64_of_float.
  change (Minutes 0) with 0%float.
  rewrite FloatAxioms.mul_spec.
  change (Prim2SF 0) with (S754_zero false).
  by destruct (Prim2SF (float64_of_int (wrap64 (-1 * d)))) as [s|s| |s m e].
Qed.

Lemma advance_rate_0 fuel start t durations c m a :
  t < start ->
  result (advance fuel start 0 t durations c m a) = None.
Proof.
  intros Ht. revert durations c m a.
  induction fuel as [|fuel IH]; intros d c m a; cbn [advance];
    rewrite bucket_offset_rate_0; unfold Before, Add;
    replace (t <? start + 0) with true by (symmetry; apply Z.ltb_lt; lia);
    [done|].
  rewrite result_bind, result_appendAndReset.
  destruct (emits a); apply IH.
Qed.

(** X19: with a rate of zero, [average] never returns for a history
    whose pulse appended last is inside the window and before [now]: the
    inner loop moves from bucket to bucket without end. *)
Theorem average_with_rate_0_never_returns
    (fuel : nat) (now : instant) (name : string) (before : list pulse)
    (p : pulse) (len : Duration) :
  0 <= len <= max_int64 ->
  now - len <= Time p < now ->
  result (average fuel now (mkServer name (before ++ [p])) len 0) = None.
Proof.
  intros Hlen Hp. unfold average. cbn [Statistics].
  rewrite rev_unit. cbn [scan].
  rewrite wrap64_small by (unfold min_int64, max_int64 in *; lia).
  rewrite bucket_offset_rate_0. unfold Before at 1, After, Add.
  replace (Time p <? now + -1 * len) with false
    by (symmetry; apply Z.ltb_ge; lia).
  replace (now + 0 <? Time p) with false
    by (symmetry; apply Z.ltb_ge; lia).
  rewrite result_bind, advance_rate_0; [done|lia].
Qed.

Lemma average_with_rate_0_never_returns_witness :
  result (average 1000 (100 * Hour)
            (mkServer "a"
               ([] ++ [ {| Name := "a"; Cpu := 1; Mem := 2;
                           Time := 100 * Hour - Second |} ]))
            Hour 0)
  = None.
Proof.
  apply (average_with_rate_0_never_returns 1000 (100 * Hour) "a" []
           {| Name := "a"; Cpu := 1; Mem := 2; Time := 100 * Hour - Second |}
           Hour).
  - vm_compute. split; discriminate.
  - vm_compute. split; [discriminate|reflexivity].
Defined.

(** ** The first average *)

(** The lists only grow: what was appended stays first. *)
Lemma advance_extends fuel start rate t durations c m a d' c' m' a' :
  result (advance fuel start rate t durations c m a) = Some (d', c', m', a') ->
  exists c'' m'', c' = c ++ c'' /\ m' = m ++ m''.
Proof.
  revert durations c m a.
  induction fuel as [|fuel IH]; intros d c m a; cbn [advance];
    destruct (Before _ _); try done;
    try (intros [= _ <- <- _]; exists [], []; by rewrite !app_nil_r).
  rewrite result_bind, result_appendAndReset.
  destruct (emits a); intros Hadv; apply IH in Hadv; [|done].
  destruct Hadv as (c'' & m'' & -> & ->).
  eexists _, _. by rewrite <- !app_assoc.
Qed.

Lemma scan_extends fuel start len rate pending durations c m a
    memaverages cpuaverages :
  result (scan fuel start len rate pending durations c m a)
  = Some (memaverages, cpuaverages) ->
  exists m' c', memaverages = m ++ m' /\ cpuaverages = c ++ c'.
Proof.
  assert (Hfinish : forall c0 m0 a0,
            result (finish c0 m0 a0) = Some (memaverages, cpuaverages) ->
            exists m' c', memaverages = m0 ++ m' /\ cpuaverages = c0 ++ c').
  { intros c0 m0 a0. rewrite result_finish.
    destruct (emits a0); intros [= <- <-]; [by eexists _, _|].
    exists [], []. by rewrite !app_nil_r. }
  revert durations c m a.
  induction pending as [|p older IH]; intros d c m a; cbn [scan];
    [apply Hfinish|].
  destruct (Before (Time p) _); [apply Hfinish|].
  destruct (After _ _); [apply IH|].
  rewrite result_bind.
  destruct (result (advance fuel start rate (Time p) d c m a))
    as [[[[d1 c1] m1] a1]|] eqn:Hadv; [|done].
  destruct (advance_extends _ _ _ _ _ _ _ _ _ _ _ _ Hadv)
    as (c'' & m'' & -> & ->).
  cbv beta iota. rewrite result_bind.
  destruct (result (match older with
                    | [] => appendAndReset (c ++ c'') (m ++ m'') a1
                    | _ :: _ => ret (c ++ c'', m ++ m'', a1)
                    end)); [|done].
  intros Hres. destruct (IH _ _ _ _ Hres) as (m' & c' & -> & ->).
  eexists _, _. by rewrite <- !app_assoc.
Qed.

(** The pulses after the older end of the first bucket are added to the
    sums, one after the other. *)
Lemma scan_adds_newest fuel start len rate newest rest group a :
  Forall (fun p => start + wrap64 (-1 * len) <= Time p
                   /\ start + bucket_offset 1 rate < Time p) newest ->
  follows [] group [] [] a ->
  Z.of_nat (length group + length newest) <= max_int64 ->
  exists a',
    follows [] (group ++ newest) [] [] a'
    /\ scan fuel start len rate (newest ++ rest) 1 [] [] a
       = scan fuel start len rate rest 1 [] [] a'.
Proof.
  intros Hall. revert group a.
  induction Hall as [|p older [Hin Hnew] _ IH]; intros group a Hf Hlen.
  - exists a. by rewrite app_nil_r.
  - destruct (IH (group ++ [p]) (accumulate a p)) as (a' & Hf' & Hscan).
    + apply follows_accumulate; [done|]. cbn [length] in Hlen. lia.
    + rewrite length_app. cbn [length] in *. lia.
    + exists a'. split; [by rewrite <- app_assoc in Hf'|].
      cbn [app scan]. unfold Before, After, Add.
      replace (Time p <? start + wrap64 (-1 * len)) with false
        by (symmetry; apply Z.ltb_ge; lia).
      by replace (start + bucket_offset 1 rate <? Time p) with true
        by (symmetry; apply Z.ltb_lt; lia).
Qed.

(** X20: the first average is that of the first bucket.  When the pulses
    appended last are after the older end of the first bucket, with cpu
    loads that add up to more than zero, and the pulse appended before
    them is inside the window and before that end, the lists that
    [average] returns start with the means of these newest pulses. *)
Theorem average_starts_with_newest_bucket
    (fuel : nat) (now : instant) (name : string)
    (before : list pulse) (q : pulse) (newest : list pulse)
    (len rate : Duration) (memaverages cpuaverages : list float) :
  Z.of_nat (length newest) <= max_int64 ->
  Forall (fun p => now + wrap64 (-1 * len) <= Time p
                   /\ now + bucket_offset 1 rate < Time p) newest ->
  now + wrap64 (-1 * len) <= Time q < now + bucket_offset 1 rate ->
  (0 <? total Cpu (rev newest))%float = true ->
  result (average fuel now (mkServer name (before ++ q :: newest)) len rate)
  = Some (memaverages, cpuaverages) ->
  exists mem' cpu',
    memaverages = mean Mem (rev newest) :: mem'
    /\ cpuaverages = mean Cpu (rev newest) :: cpu'.
Proof.
  intros Hlen Hall Hq Hcpu. unfold average. cbn [Statistics].
  rewrite rev_app_distr. cbn [rev]. rewrite <- app_assoc. cbn [app].
  destruct (scan_adds_newest fuel now len rate (rev newest)
              (q :: rev before) [] no_pulse) as (a & Hf & ->).
  { apply Forall_forall. intros p Hp. rewrite Forall_forall in Hall.
    apply Hall. apply list_elem_of_In. apply list_elem_of_In in Hp.
    by apply in_rev. }
  { by repeat split. }
  { cbn [length]. rewrite length_rev. lia. }
  cbn [app] in Hf. destruct Hf as (_ & _ & _ & Hcount & Hsum & Hmem).
  cbn [scan]. unfold Before at 1, After, Add.
  replace (Time q <? now + wrap64 (-1 * len)) with false
    by (symmetry; apply Z.ltb_ge; lia).
  replace (now + bucket_offset 1 rate <? Time q) with false
    by (symmetry; apply Z.ltb_ge; lia).
  rewrite result_bind.
  destruct fuel as [|fuel]; cbn [advance]; unfold Before, Add;
    replace (Time q <? now + bucket_offset 1 rate) with true
      by (symmetry; apply Z.ltb_lt; lia); [done|].
  rewrite result_bind, result_appendAndReset.
  unfold emits at 1. rewrite Hsum, Hcpu.
  destruct (result (advance fuel now rate (Time q) _ _ _ no_pulse))
    as [[[[d1 c1] m1] a1]|] eqn:Hadv; [|done].
  destruct (advance_no_pulse _ _ _ _ _ _ _ _ _ _ _ Hadv) as (-> & -> & ->).
  cbv beta iota. rewrite result_bind.
  destruct (result (match rev before with
                    | [] => appendAndReset _ _ no_pulse
                    | _ :: _ => ret _
                    end)); [|done].
  intros Hres. destruct (scan_extends _ _ _ _ _ _ _ _ _ _ _ Hres)
    as (m' & c' & -> & ->).
  exists m', c'. unfold mean. by rewrite Hcount, Hmem.
Qed.

Lemma average_starts_with_newest_bucket_witness :
  exists mem' cpu',
    [4%float] = mean Mem (rev [ {| Name := "a"; Cpu := 2; Mem := 4;
                                   Time := 100 * Hour - 30 * Second |} ])
                :: mem'
    /\ [2%float] = mean Cpu (rev [ {| Name := "a"; Cpu := 2; Mem := 4;
                                      Time := 100 * Hour - 30 * Second |} ])
                   :: cpu'.
Proof.
  apply (average_starts_with_newest_bucket 60 (100 * Hour) "a" []
           {| Name := "a"; Cpu := 1; Mem := 3; Time := 100 * Hour - 90 * Second |}
           [ {| Name := "a"; Cpu := 2; Mem := 4;
                Time := 100 * Hour - 30 * Second |} ]
           (Minute * 60) Minute [4%float] [2%float]).
  - vm_compute. discriminate.
  - repeat constructor; vm_compute; congruence.
  - vm_compute. split; [discriminate|reflexivity].
  - vm_compute. reflexivity.
  - vm_compute. reflexivity.
Defined.
